(** * boxspy: the InfluxDB storage driver (storage/influxdb/influxdb.go)

    A shallow embedding of the driver's typed-record/row converters, of its
    buffering [AddStats] and of its [RecentStats] read path, together with
    the properties the specification states about them.

    Go values are modelled as the program has them: machine integers as [Z]
    with their wrap-around written out, [float64] as IEEE-754 binary64 data
    ([spec_float]), [interface{}] as a tagged union of the dynamic types the
    driver inspects, pointers as [option], and slices as headers
    (array, len, cap) into a store of backing arrays, because the driver
    passes slices by value to a helper that appends to them. *)

From Stdlib Require Import ZArith String List Lia Bool Sorted.
From Stdlib Require Import Floats.SpecFloat.
From stdpp Require Import base list pretty.

Local Open Scope string_scope.
Local Open Scope list_scope.
Local Open Scope Z_scope.

(** ** Go machine integers *)

Definition two63 : Z := 2 ^ 63.
Definition two64 : Z := 2 ^ 64.

(** Conversion of an integer to [uint64] (two's complement wrap-around). *)
Definition uint64 (z : Z) : Z := z mod two64.

(** Result of an [int64] operation whose mathematical result is [z]. *)
Definition int64 (z : Z) : Z := (z + two63) mod two64 - two63.

Definition is_uint64 (z : Z) : Prop := 0 <= z < two64.
Definition is_uint32 (z : Z) : Prop := 0 <= z < 2 ^ 32.
Definition is_int64 (z : Z) : Prop := - two63 <= z < two63.

(** ** float64 *)

Definition float64 : Type := spec_float.

Definition f64_zero : float64 := S754_zero false.

(** [x < 0] on float64: false for NaN and for both zeros. *)
Definition f64_ltz (x : float64) : bool := SFltb x f64_zero.

(** The integer part of a finite float (rounding toward zero); [None] for
    NaN and the infinities. *)
Definition f64_trunc (x : float64) : option Z :=
  match x with
  | S754_zero _ => Some 0
  | S754_finite s m e =>
      let mag := match e with
                 | Zneg p => Z.shiftr (Zpos m) (Zpos p)
                 | _ => Z.shiftl (Zpos m) e
                 end in
      Some (if s then - mag else mag)
  | S754_infinity _ | S754_nan => None
  end.

(** What the Go implementation leaves open: the result of a float to integer
    conversion whose value does not fit the target type, and the capacity
    [append] picks when it has to move a slice to a larger array. *)
Record GoImpl := {
  f64_to_uint64_unrepresentable : float64 -> Z;
  f64_to_int64_unrepresentable : float64 -> Z;
  growslice : nat -> nat -> nat
}.

(** [uint64(x)] for [x] of type float64. *)
Definition f64_to_uint64 (impl : GoImpl) (x : float64) : Z :=
  match f64_trunc x with
  | Some z => if (0 <=? z) && (z <? two64) then z
              else uint64 (f64_to_uint64_unrepresentable impl x)
  | None => uint64 (f64_to_uint64_unrepresentable impl x)
  end.

(** [int64(x)] for [x] of type float64. *)
Definition f64_to_int64 (impl : GoImpl) (x : float64) : Z :=
  match f64_trunc x with
  | Some z => if (- two63 <=? z) && (z <? two63) then z
              else int64 (f64_to_int64_unrepresentable impl x)
  | None => int64 (f64_to_int64_unrepresentable impl x)
  end.

(** ** time.Time

    Only the wall-clock instant is modelled: seconds since January 1 of
    year 1 (what Go's [Time.sec()] returns) and nanoseconds within the
    second. *)

Record Time := mkTime { t_sec : Z; t_nsec : Z }.

Definition unixToInternal : Z := 62135596800.
Definition internalToUnix : Z := - unixToInternal.

(** The zero value of [time.Time]. *)
Definition Time_zero : Time := mkTime 0 0.

Definition Time_IsZero (t : Time) : bool := (t_sec t =? 0) && (t_nsec t =? 0).

(** [t.UnixNano()], computed in int64. *)
Definition Time_UnixNano (t : Time) : Z :=
  int64 ((t_sec t + internalToUnix) * 1000000000 + t_nsec t).

(** [time.Unix(sec, nsec)]: [nsec] outside [0, 999999999] is normalised
    into the seconds. *)
Definition time_Unix (sec nsec : Z) : Time :=
  let '(sec, nsec) :=
    if (nsec <? 0) || (1000000000 <=? nsec) then
      let n := Z.quot nsec 1000000000 in
      let sec := int64 (sec + n) in
      let nsec := int64 (nsec - int64 (n * 1000000000)) in
      if nsec <? 0 then (int64 (sec - 1), int64 (nsec + 1000000000))
      else (sec, nsec)
    else (sec, nsec) in
  mkTime (int64 (sec + unixToInternal)) nsec.

(** [t.Sub(u)] as a [time.Duration] (int64 nanoseconds), saturating at the
    ends of the int64 range as the library does. *)
Definition Time_Sub (t u : Time) : Z :=
  let d := (t_sec t - t_sec u) * 1000000000 + (t_nsec t - t_nsec u) in
  if d <? - two63 then - two63
  else if two63 <=? d then two63 - 1
  else d.

(** ** interface{} values

    The dynamic types the driver's type switches and assertions tell
    apart; [VOther] stands for a value of any further type (a bool, a map,
    a narrower integer, ...), named by its type. *)
Inductive value : Type :=
| VNil
| VUint64 (x : Z)
| VInt (x : Z)
| VInt32 (x : Z)
| VInt64 (x : Z)
| VFloat64 (x : float64)
| VUint32 (x : Z)
| VString (s : string)
| VOther (ty : string).

(** ** Errors

    One constructor per [fmt.Errorf] call site; the arguments are the
    operands of the format string.  [errStore] is an error handed back by
    the InfluxDB client. *)
Inductive error : Type :=
| errNegativeValue (x : value)
    (* "negative value: %v" *)
| errUnknownType
    (* "Unknown type" *)
| errDifferentMachine
    (* "different machine" *)
| errMachineNotString (v : value)
    (* "machine name field is not a string: %v" *)
| errFsNameNotString (v : value)
    (* "filesystem name field is not a string: %+v" *)
| errFsLimitInvalid (v : value) (err : error)
    (* "filesystem limit field %+v invalid: %s" *)
| errFsUsageInvalid (v : value) (err : error)
    (* "filesystem usage field %+v invalid: %s" *)
| errColumnInvalid (col : string) (v : value) (err : error)
    (* "column %v has invalid value %v: %v" *)
| errWriteFailed (err : error)
    (* "failed to write stats to influxDb - %s" *)
| errStore (msg : string).

(** Run-time panics the modelled code can raise. *)
Inductive panic : Type :=
| nilDereference
| indexOutOfRange (i : nat) (n : nat).

(** Outcome of a call: a normal return, an [error] return (the other
    results are then nil), or a panic. *)
Inductive result (A : Type) : Type :=
| Ok (a : A)
| Err (e : error)
| Panic (p : panic).
Arguments Ok {A} a.
Arguments Err {A} e.
Arguments Panic {A} p.

Definition is_Ok {A} (r : result A) : bool :=
  match r with Ok _ => true | _ => false end.

Definition rbind {A B} (r : result A) (k : A -> result B) : result B :=
  match r with
  | Ok a => k a
  | Err e => Err e
  | Panic p => Panic p
  end.

(** ** Slices

    A slice value is a header; the elements live in a backing array.
    Passing a slice to a function copies the header only.  [append]
    returns a new header: it writes in place while the capacity allows,
    and otherwise moves the elements to a fresh, larger array. *)

Record slice := mkSlice { s_arr : nat; s_len : nat; s_cap : nat }.

(** The nil slice (it is never indexed: its array field is irrelevant). *)
Definition nilSlice : slice := mkSlice 0 0 0.

(** Backing arrays, addressed by allocation order. *)
Abbreviation heap A := (list (list A)).

Section Slices.
Context {A : Type}.
Variable zero : A.
Variable impl : GoImpl.

(** The elements of a slice. *)
Definition view (h : heap A) (s : slice) : list A :=
  take (s_len s) (default [] (h !! s_arr s)).

(** [make([]T, 0)] *)
Definition make0 (h : heap A) : slice * heap A :=
  (mkSlice (length h) 0 0, h ++ [[]]).

(** [append(s, x)] *)
Definition append (h : heap A) (s : slice) (x : A) : slice * heap A :=
  if decide (s_len s < s_cap s)%nat then
    (mkSlice (s_arr s) (S (s_len s)) (s_cap s),
     alter (fun a => <[s_len s := x]> a) (s_arr s) h)
  else
    let c := Nat.max (S (s_len s)) (growslice impl (s_cap s) (S (s_len s))) in
    (mkSlice (length h) (S (s_len s)) c,
     h ++ [view h s ++ x :: replicate (c - S (s_len s)) zero]).

(** A header is well formed in [h] when its array exists and has the
    header's capacity (nothing is asked of a slice of capacity 0). *)
Definition wf (h : heap A) (s : slice) : Prop :=
  (s_len s <= s_cap s)%nat /\
  (s_cap s = 0%nat \/ exists a, h !! s_arr s = Some a /\ length a = s_cap s).

(** A header is owned above [n] when appending to it cannot touch an
    array allocated before the heap had [n] arrays. *)
Definition owned (n : nat) (s : slice) : Prop :=
  s_cap s = 0%nat \/ (n <= s_arr s)%nat.
End Slices.

(** ** Package info

    The types of package info are declared outside this file.  Counters
    are uint64; the sub-records of a sample are pointers, hence [option]. *)

(** Modelled from the spec: ContainerReference, "a primary name and an
    optional ordered list of alias names". *)
Record ContainerReference := {
  Name : string;
  Aliases : list string
}.

(** Modelled from the spec: the CPU sub-record, of which the driver uses
    the cumulative usage counter [Cpu.Usage.Total]. *)
Record CpuUsage := { Total : Z }.

Record CpuStats := { cpu_Usage : CpuUsage }.

(** Modelled from the spec: the memory sub-record, "memory usage and
    working-set size (non-negative integers)". *)
Record MemoryStats := {
  mem_Usage : Z;
  WorkingSet : Z
}.

(** Modelled from the spec: the network sub-record, "cumulative rx/tx bytes
    and error counts". *)
Record NetworkStats := {
  RxBytes : Z;
  RxErrors : Z;
  TxBytes : Z;
  TxErrors : Z
}.

(** Modelled from the spec: a filesystem entry, "a device identifier
    string, a capacity limit, and a current usage". *)
Record FsStats := {
  Device : string;
  Limit : Z;
  fs_Usage : Z
}.

(** Modelled from the spec: ContainerStats, "one sample in time for one
    container": a timestamp, the CPU and memory sub-records, optional
    network stats and zero or more filesystem stats. *)
Record ContainerStats := {
  Timestamp : Time;
  Cpu : option CpuStats;
  Memory : option MemoryStats;
  Network : option NetworkStats;
  Filesystem : list FsStats
}.

(** Field assignments (Go mutates the record in place; here each returns the
    updated record). *)
Definition set_Timestamp (t : Time) (s : ContainerStats) : ContainerStats :=
  {| Timestamp := t; Cpu := Cpu s; Memory := Memory s; Network := Network s;
     Filesystem := Filesystem s |}.

Definition set_Cpu (c : option CpuStats) (s : ContainerStats) : ContainerStats :=
  {| Timestamp := Timestamp s; Cpu := c; Memory := Memory s;
     Network := Network s; Filesystem := Filesystem s |}.

Definition set_Memory (m : option MemoryStats) (s : ContainerStats) : ContainerStats :=
  {| Timestamp := Timestamp s; Cpu := Cpu s; Memory := m;
     Network := Network s; Filesystem := Filesystem s |}.

Definition set_Network (n : option NetworkStats) (s : ContainerStats) : ContainerStats :=
  {| Timestamp := Timestamp s; Cpu := Cpu s; Memory := Memory s;
     Network := n; Filesystem := Filesystem s |}.

Definition set_Filesystem (f : list FsStats) (s : ContainerStats) : ContainerStats :=
  {| Timestamp := Timestamp s; Cpu := Cpu s; Memory := Memory s;
     Network := Network s; Filesystem := f |}.

(** Dereference of a pointer. *)
Definition deref {A} (p : option A) : result A :=
  match p with
  | Some a => Ok a
  | None => Panic nilDereference
  end.

(** ** The InfluxDB client (external)

    A series is a table name, a column list and a list of points.  The type
    is shared by the write path, where columns and points are slice headers
    into the driver's memory, and by the read path, where the client hands
    back decoded data that the driver only reads. *)

Record Series (C P : Type) := mkSeries {
  s_Name : string;
  Columns : C;
  Points : list P
}.
Arguments mkSeries {C P} _ _ _.
Arguments s_Name {C P} _.
Arguments Columns {C P} _.
Arguments Points {C P} _.

(** A series held by the driver: headers of a []string and of []interface{}
    points. *)
Definition SeriesRef : Type := Series slice slice.

(** A series by its contents. *)
Definition SeriesData : Type := Series (list string) (list value).

Inductive TimePrecision := Second | Millisecond | Microsecond.

(** The two client calls the driver makes.  The client is an oracle: the
    theorems hold for every client. *)
Record Client := {
  WriteSeriesWithTimePrecision : list SeriesData -> TimePrecision -> option error;
  Query : string -> list SeriesData * option error
}.

(** The configuration handed to the client library's constructor. *)
Record ClientConfig := {
  Host : string;
  Username : string;
  Password : string;
  Database : string;
  IsSecure : bool
}.

(** ** Column schema *)

Definition colTimestamp : string := "time".
Definition colMachineName : string := "machine".
Definition colContainerName : string := "container_name".
Definition colCpuCumulativeUsage : string := "cpu_cumulative_usage".
Definition colMemoryUsage : string := "memory_usage".
Definition colMemoryWorkingSet : string := "memory_working_set".
Definition colRxBytes : string := "rx_bytes".
Definition colRxErrors : string := "rx_errors".
Definition colTxBytes : string := "tx_bytes".
Definition colTxErrors : string := "tx_errors".
Definition colFsDevice : string := "fs_device".
Definition colFsLimit : string := "fs_limit".
Definition colFsUsage : string := "fs_usage".

(** The three columns every row is meant to start with. *)
Definition defaultColumns : list string :=
  [colTimestamp; colMachineName; colContainerName].

(** ** The storage driver's state *)

(** The flush policy held in the [readyToFlush] field: the default method,
    or a predicate installed by [OverrideReadyToFlush] (observing the
    pending batch). *)
Inductive flushPolicy :=
| policyDefault
| policyOverride (f : list SeriesRef -> bool).

Record influxdbStorage := {
  client : option Client;
  machineName : string;
  tableName : string;
  bufferDuration : Z;
  lastWrite : Time;
  series : list SeriesRef;
  readyToFlush : flushPolicy
}.

Definition set_series (l : list SeriesRef) (s : influxdbStorage) : influxdbStorage :=
  {| client := client s; machineName := machineName s; tableName := tableName s;
     bufferDuration := bufferDuration s; lastWrite := lastWrite s;
     series := l; readyToFlush := readyToFlush s |}.

Definition set_lastWrite (t : Time) (s : influxdbStorage) : influxdbStorage :=
  {| client := client s; machineName := machineName s; tableName := tableName s;
     bufferDuration := bufferDuration s; lastWrite := t;
     series := series s; readyToFlush := readyToFlush s |}.

Definition set_readyToFlush (p : flushPolicy) (s : influxdbStorage) : influxdbStorage :=
  {| client := client s; machineName := machineName s; tableName := tableName s;
     bufferDuration := bufferDuration s; lastWrite := lastWrite s;
     series := series s; readyToFlush := p |}.

Definition set_client (c : option Client) (s : influxdbStorage) : influxdbStorage :=
  {| client := c; machineName := machineName s; tableName := tableName s;
     bufferDuration := bufferDuration s; lastWrite := lastWrite s;
     series := series s; readyToFlush := readyToFlush s |}.

(** What a call does that other threads or the store can observe, in
    program order. *)
Inductive event :=
| EvLock
| EvUnlock
| EvSetSeries (pending : list SeriesRef)
| EvSetLastWrite (t : Time)
| EvWriteSeries (batch : list SeriesData) (precision : TimePrecision)
| EvQuery (q : string).

(** The world a method call runs in: the receiver, the memory holding the
    backing arrays of []string and []interface{} slices, the wall clock
    (the [n]-th reading of [time.Now] is [clock n]) and the trace of events
    so far. *)
Record world := {
  self : influxdbStorage;
  strings : heap string;
  ifaces : heap value;
  clock : nat -> Time;
  ticks : nat;
  trace : list event
}.

Definition with_self (s : influxdbStorage) (w : world) : world :=
  {| self := s; strings := strings w; ifaces := ifaces w; clock := clock w;
     ticks := ticks w; trace := trace w |}.

Definition with_strings (h : heap string) (w : world) : world :=
  {| self := self w; strings := h; ifaces := ifaces w; clock := clock w;
     ticks := ticks w; trace := trace w |}.

Definition with_ifaces (h : heap value) (w : world) : world :=
  {| self := self w; strings := strings w; ifaces := h; clock := clock w;
     ticks := ticks w; trace := trace w |}.

Definition with_ticks (n : nat) (w : world) : world :=
  {| self := self w; strings := strings w; ifaces := ifaces w; clock := clock w;
     ticks := n; trace := trace w |}.

Definition with_trace (t : list event) (w : world) : world :=
  {| self := self w; strings := strings w; ifaces := ifaces w; clock := clock w;
     ticks := ticks w; trace := t |}.

(** ** The monad of method bodies: state passing over [world], with error
    returns and panics (the world is kept in both, as the caller and the
    other threads still see it). *)

Definition M (A : Type) : Type := world -> result A * world.

Definition ret {A} (a : A) : M A := fun w => (Ok a, w).

Definition bind {A B} (m : M A) (k : A -> M B) : M B :=
  fun w => match m w with
           | (Ok a, w') => k a w'
           | (Err e, w') => (Err e, w')
           | (Panic p, w') => (Panic p, w')
           end.

Definition lift {A} (r : result A) : M A := fun w => (r, w).

Definition get : M world := fun w => (Ok w, w).
Definition modify (f : world -> world) : M unit := fun w => (Ok tt, f w).
Definition emit (e : event) : M unit :=
  modify (fun w => with_trace (trace w ++ [e]) w).

(** [defer cleanup] in front of [body]: the cleanup runs when the body is
    left, by a return or by a panic, and the body's outcome stands. *)
Definition defer {A} (cleanup : M unit) (body : M A) : M A :=
  fun w => let '(r, w') := body w in (r, snd (cleanup w')).

Declare Scope go_scope.
Delimit Scope go_scope with go.
Notation "x <- m ;; k" := (bind m (fun x => k))
  (at level 100, m at next level, right associativity) : go_scope.
Notation "m ;;; k" := (bind m (fun _ => k))
  (at level 100, right associativity) : go_scope.
Local Open Scope go_scope.

(** ** The driver *)

Section Driver.
Variable impl : GoImpl.

(** [append] on a []string and on a []interface{} of the world's memory. *)
Definition appendS (s : slice) (x : string) : M slice :=
  fun w => let '(s', h') := append "" impl (strings w) s x in
           (Ok s', with_strings h' w).

Definition appendV (s : slice) (x : value) : M slice :=
  fun w => let '(s', h') := append VNil impl (ifaces w) s x in
           (Ok s', with_ifaces h' w).

(** [make([]string, 0)] and [make([]interface{}, 0)] *)
Definition makeS : M slice :=
  fun w => let '(s, h') := make0 (strings w) in (Ok s, with_strings h' w).

Definition makeV : M slice :=
  fun w => let '(s, h') := make0 (ifaces w) in (Ok s, with_ifaces h' w).

(** [time.Now()] *)
Definition time_Now : M Time :=
  fun w => (Ok (clock w (ticks w)), with_ticks (S (ticks w)) w).

(** The contents of a series in the current memory. *)
Definition series_data (w : world) (s : SeriesRef) : SeriesData :=
  mkSeries (s_Name s) (view (strings w) (Columns s))
           (map (view (ifaces w)) (Points s)).

(** func (self *influxdbStorage) getSeriesDefaultValues(ref, stats,
    columns []string, values []interface{}).  The function has no results:
    [columns] and [values] are its own copies of the caller's headers, and
    every [append] below assigns to those copies. *)
Definition getSeriesDefaultValues (ref : ContainerReference)
    (stats : option ContainerStats) (columns values : slice) : M unit :=
  (* Timestamp *)
  columns <- appendS columns colTimestamp ;;
  st <- lift (deref stats) ;;
  values <- appendV values (VInt64 (Z.quot (Time_UnixNano (Timestamp st)) 1000)) ;;
  (* Machine name *)
  columns <- appendS columns colMachineName ;;
  w <- get ;;
  values <- appendV values (VString (machineName (self w))) ;;
  (* Container name *)
  columns <- appendS columns colContainerName ;;
  values <- match Aliases ref with
            | a0 :: _ => appendV values (VString a0)
            | [] => appendV values (VString (Name ref))
            end ;;
  ret tt.

(** func (self *influxdbStorage) newSeries(columns, points) *influxdb.Series *)
Definition newSeries (columns points : slice) : M SeriesRef :=
  w <- get ;;
  ret (mkSeries (tableName (self w)) columns [points]).

(** The body of the [range stats.Filesystem] loop of
    containerFilesystemStatsToSeries, run over the remaining entries;
    [series] is the result accumulated so far. *)
Fixpoint containerFilesystemStatsToSeries_loop (ref : ContainerReference)
    (stats : option ContainerStats) (fs : list FsStats)
    (series : list SeriesRef) : M (list SeriesRef) :=
  match fs with
  | [] => ret series
  | fsStat :: fs' =>
      columns <- makeS ;;
      values <- makeV ;;
      getSeriesDefaultValues ref stats columns values ;;;
      columns <- appendS columns colFsDevice ;;
      values <- appendV values (VString (Device fsStat)) ;;
      columns <- appendS columns colFsLimit ;;
      values <- appendV values (VUint64 (Limit fsStat)) ;;
      columns <- appendS columns colFsUsage ;;
      values <- appendV values (VUint64 (fs_Usage fsStat)) ;;
      s <- newSeries columns values ;;
      containerFilesystemStatsToSeries_loop ref stats fs' (series ++ [s])
  end.

(** func (self *influxdbStorage) containerFilesystemStatsToSeries(ref, stats)
    (series []*influxdb.Series) *)
Definition containerFilesystemStatsToSeries (ref : ContainerReference)
    (stats : option ContainerStats) : M (list SeriesRef) :=
  st <- lift (deref stats) ;;
  if (length (Filesystem st) =? 0)%nat then ret []
  else containerFilesystemStatsToSeries_loop ref stats (Filesystem st) [].

(** func (self *influxdbStorage) containerStatsToValues(ref, stats)
    (columns []string, values []interface{}).  The named results start as
    nil slices. *)
Definition containerStatsToValues (ref : ContainerReference)
    (stats : option ContainerStats) : M (slice * slice) :=
  let columns := nilSlice in
  let values := nilSlice in
  getSeriesDefaultValues ref stats columns values ;;;
  st <- lift (deref stats) ;;
  (* Cumulative Cpu Usage *)
  columns <- appendS columns colCpuCumulativeUsage ;;
  cpu <- lift (deref (Cpu st)) ;;
  values <- appendV values (VUint64 (Total (cpu_Usage cpu))) ;;
  (* Memory Usage *)
  columns <- appendS columns colMemoryUsage ;;
  mem <- lift (deref (Memory st)) ;;
  values <- appendV values (VUint64 (mem_Usage mem)) ;;
  (* Working set size *)
  columns <- appendS columns colMemoryWorkingSet ;;
  values <- appendV values (VUint64 (WorkingSet mem)) ;;
  (* Optional: Network stats. *)
  match Network st with
  | Some net =>
      columns <- appendS columns colRxBytes ;;
      values <- appendV values (VUint64 (RxBytes net)) ;;
      columns <- appendS columns colRxErrors ;;
      values <- appendV values (VUint64 (RxErrors net)) ;;
      columns <- appendS columns colTxBytes ;;
      values <- appendV values (VUint64 (TxBytes net)) ;;
      columns <- appendS columns colTxErrors ;;
      values <- appendV values (VUint64 (TxErrors net)) ;;
      ret (columns, values)
  | None => ret (columns, values)
  end.

(** func convertToUint64(v interface{}) (uint64, error): both results, as
    the callers assign both. *)
Definition convertToUint64 (v : value) : Z * option error :=
  match v with
  | VNil => (0, None)
  | VUint64 x => (x, None)
  | VInt x | VInt32 x | VInt64 x =>
      if x <? 0 then (0, Some (errNegativeValue v)) else (uint64 x, None)
  | VFloat64 x =>
      if f64_ltz x then (0, Some (errNegativeValue v))
      else (f64_to_uint64 impl x, None)
  | VUint32 x => (uint64 x, None)
  | VString _ | VOther _ => (0, Some errUnknownType)
  end.

(** One iteration of the loop of valuesToContainerStats, up to the check of
    [err] that follows the switch: the updated record and [err], or the
    [return] taken inside the switch. *)
Definition valuesToContainerStats_case (self : influxdbStorage)
    (col : string) (v : value) (stats : ContainerStats) (err : option error)
    : result (ContainerStats * option error) :=
  if String.eqb col colTimestamp then
    match v with
    | VFloat64 f64sec =>
        if Time_IsZero (Timestamp stats) then
          let n := f64_to_int64 impl f64sec in
          Ok (set_Timestamp
                (time_Unix (Z.quot n 1000) (int64 (Z.rem n 1000 * 1000000)))
                stats, err)
        else Ok (stats, err)
    | _ => Ok (stats, err)
    end
  else if String.eqb col colMachineName then
    match v with
    | VString m =>
        if negb (String.eqb m (machineName self)) then Err errDifferentMachine
        else Ok (stats, err)
    | _ => Err (errMachineNotString v)
    end
  else if String.eqb col colCpuCumulativeUsage then
    rbind (deref (Cpu stats)) (fun cpu =>
    let '(x, e) := convertToUint64 v in
    Ok (set_Cpu (Some {| cpu_Usage := {| Total := x |} |}) stats, e))
  else if String.eqb col colMemoryUsage then
    rbind (deref (Memory stats)) (fun mem =>
    let '(x, e) := convertToUint64 v in
    Ok (set_Memory (Some {| mem_Usage := x; WorkingSet := WorkingSet mem |})
          stats, e))
  else if String.eqb col colMemoryWorkingSet then
    rbind (deref (Memory stats)) (fun mem =>
    let '(x, e) := convertToUint64 v in
    Ok (set_Memory (Some {| mem_Usage := mem_Usage mem; WorkingSet := x |})
          stats, e))
  else if String.eqb col colRxBytes then
    rbind (deref (Network stats)) (fun net =>
    let '(x, e) := convertToUint64 v in
    Ok (set_Network (Some {| RxBytes := x; RxErrors := RxErrors net;
                             TxBytes := TxBytes net; TxErrors := TxErrors net |})
          stats, e))
  else if String.eqb col colRxErrors then
    rbind (deref (Network stats)) (fun net =>
    let '(x, e) := convertToUint64 v in
    Ok (set_Network (Some {| RxBytes := RxBytes net; RxErrors := x;
                             TxBytes := TxBytes net; TxErrors := TxErrors net |})
          stats, e))
  else if String.eqb col colTxBytes then
    rbind (deref (Network stats)) (fun net =>
    let '(x, e) := convertToUint64 v in
    Ok (set_Network (Some {| RxBytes := RxBytes net; RxErrors := RxErrors net;
                             TxBytes := x; TxErrors := TxErrors net |})
          stats, e))
  else if String.eqb col colTxErrors then
    rbind (deref (Network stats)) (fun net =>
    let '(x, e) := convertToUint64 v in
    Ok (set_Network (Some {| RxBytes := RxBytes net; RxErrors := RxErrors net;
                             TxBytes := TxBytes net; TxErrors := x |})
          stats, e))
  else if String.eqb col colFsDevice then
    match v with
    | VString device =>
        match Filesystem stats with
        | [] =>
            Ok (set_Filesystem
                  [{| Device := device; Limit := 0; fs_Usage := 0 |}] stats, err)
        | f0 :: rest =>
            Ok (set_Filesystem
                  ({| Device := device; Limit := Limit f0;
                      fs_Usage := fs_Usage f0 |} :: rest) stats, err)
        end
    | _ => Err (errFsNameNotString v)
    end
  else if String.eqb col colFsLimit then
    match convertToUint64 v with
    | (_, Some e) => Err (errFsLimitInvalid v e)
    | (limit, None) =>
        match Filesystem stats with
        | [] =>
            Ok (set_Filesystem
                  [{| Device := ""; Limit := limit; fs_Usage := 0 |}] stats, err)
        | f0 :: rest =>
            Ok (set_Filesystem
                  ({| Device := Device f0; Limit := limit;
                      fs_Usage := fs_Usage f0 |} :: rest) stats, err)
        end
    end
  else if String.eqb col colFsUsage then
    match convertToUint64 v with
    | (_, Some e) => Err (errFsUsageInvalid v e)
    | (usage, None) =>
        match Filesystem stats with
        | [] =>
            Ok (set_Filesystem
                  [{| Device := ""; Limit := 0; fs_Usage := usage |}] stats, err)
        | f0 :: rest =>
            Ok (set_Filesystem
                  ({| Device := Device f0; Limit := Limit f0;
                      fs_Usage := usage |} :: rest) stats, err)
        end
    end
  else Ok (stats, err).

(** The [for i, col := range columns] loop of valuesToContainerStats, from
    index [i] on. *)
Fixpoint valuesToContainerStats_loop (self : influxdbStorage)
    (values : list value) (i : nat) (columns : list string)
    (stats : ContainerStats) (err : option error)
    : result (option ContainerStats) :=
  match columns with
  | [] => Ok (Some stats)
  | col :: columns' =>
      match values !! i with
      | None => Panic (indexOutOfRange i (length values))
      | Some v =>
          rbind (valuesToContainerStats_case self col v stats err)
            (fun '(stats, err) =>
               match err with
               | Some e => Err (errColumnInvalid col v e)
               | None =>
                   valuesToContainerStats_loop self values (S i) columns'
                     stats err
               end)
      end
  end.

(** The record valuesToContainerStats starts from. *)
Definition emptyStats : ContainerStats :=
  {| Timestamp := Time_zero;
     Cpu := Some {| cpu_Usage := {| Total := 0 |} |};
     Memory := Some {| mem_Usage := 0; WorkingSet := 0 |};
     Network := Some {| RxBytes := 0; RxErrors := 0; TxBytes := 0; TxErrors := 0 |};
     Filesystem := [] |}.

(** func (self *influxdbStorage) valuesToContainerStats(columns, values),
    returning a pointer to info.ContainerStats and an error. *)
Definition valuesToContainerStats (self : influxdbStorage)
    (columns : list string) (values : list value)
    : result (option ContainerStats) :=
  valuesToContainerStats_loop self values 0 columns emptyStats None.

(** func (self *influxdbStorage) OverrideReadyToFlush(readyToFlush func() bool) *)
Definition OverrideReadyToFlush (f : list SeriesRef -> bool) : M unit :=
  modify (fun w => with_self (set_readyToFlush (policyOverride f) (self w)) w).

(** func (self *influxdbStorage) defaultReadyToFlush() bool:
    [time.Since(self.lastWrite) >= self.bufferDuration]. *)
Definition defaultReadyToFlush : M bool :=
  now <- time_Now ;;
  w <- get ;;
  ret (bufferDuration (self w) <=? Time_Sub now (lastWrite (self w))).

(** The call [self.readyToFlush()]. *)
Definition call_readyToFlush : M bool :=
  w <- get ;;
  match readyToFlush (self w) with
  | policyDefault => defaultReadyToFlush
  | policyOverride f => ret (f (series (self w)))
  end.

(** The assignments to the two fields the lock protects. *)
Definition assign_series (l : list SeriesRef) : M unit :=
  modify (fun w => with_self (set_series l (self w)) w) ;;;
  emit (EvSetSeries l).

Definition assign_lastWrite (t : Time) : M unit :=
  modify (fun w => with_self (set_lastWrite t (self w)) w) ;;;
  emit (EvSetLastWrite t).

(** The function literal AddStats calls under the lock; its result is the
    value it leaves in the captured variable [seriesToFlush] (nil unless
    the flush fires). *)
Definition AddStats_func1 (ref : ContainerReference)
    (stats : option ContainerStats) : M (list SeriesRef) :=
  emit EvLock ;;;
  defer (emit EvUnlock) (
    cv <- containerStatsToValues ref stats ;;
    s <- newSeries (fst cv) (snd cv) ;;
    w <- get ;;
    assign_series (series (self w) ++ [s]) ;;;
    fs <- containerFilesystemStatsToSeries ref stats ;;
    w <- get ;;
    assign_series (series (self w) ++ fs) ;;;
    ready <- call_readyToFlush ;;
    if ready : bool then
      w <- get ;;
      let seriesToFlush := series (self w) in
      assign_series [] ;;;
      now <- time_Now ;;
      assign_lastWrite now ;;;
      ret seriesToFlush
    else ret []).

(** The call [self.client.WriteSeriesWithTimePrecision(batch, precision)]. *)
Definition client_WriteSeries (batch : list SeriesRef)
    (precision : TimePrecision) : M (option error) :=
  w <- get ;;
  c <- lift (deref (client (self w))) ;;
  let data := map (series_data w) batch in
  emit (EvWriteSeries data precision) ;;;
  ret (WriteSeriesWithTimePrecision c data precision).

(** func (self *influxdbStorage) AddStats(ref, stats) error *)
Definition AddStats (ref : ContainerReference)
    (stats : option ContainerStats) : M unit :=
  match stats with
  | None => ret tt
  | Some st =>
      match Cpu st, Memory st with
      | Some _, Some _ =>
          seriesToFlush <- AddStats_func1 ref stats ;;
          if (0 <? length seriesToFlush)%nat then
            err <- client_WriteSeries seriesToFlush Microsecond ;;
            match err with
            | Some e => lift (Err (errWriteFailed e))
            | None => ret tt
            end
          else ret tt
      | _, _ => ret tt
      end
  end.

(** The inner loop of RecentStats, [for j := len(s.Points) - 1; j >= 0; j--],
    with [j] points still to visit. *)
Fixpoint RecentStats_points (self : influxdbStorage) (s : SeriesData)
    (j : nat) (statsList : list ContainerStats)
    : result (list ContainerStats) :=
  match j with
  | O => Ok statsList
  | S j' =>
      match Points s !! j' with
      | None => Panic (indexOutOfRange j' (length (Points s)))
      | Some values =>
          match valuesToContainerStats self (Columns s) values with
          | Err e => Err e
          | Panic p => Panic p
          | Ok None => RecentStats_points self s j' statsList
          | Ok (Some stats) =>
              RecentStats_points self s j' (statsList ++ [stats])
          end
      end
  end.

(** The outer loop, [for i := len(series) - 1; i >= 0; i--], with [i]
    series still to visit. *)
Fixpoint RecentStats_series (self : influxdbStorage)
    (series : list SeriesData) (i : nat) (statsList : list ContainerStats)
    : result (list ContainerStats) :=
  match i with
  | O => Ok statsList
  | S i' =>
      match series !! i' with
      | None => Panic (indexOutOfRange i' (length series))
      | Some s =>
          rbind (RecentStats_points self s (length (Points s)) statsList)
            (fun statsList => RecentStats_series self series i' statsList)
      end
  end.

(** The query text RecentStats sends. *)
Definition RecentStats_query (self : influxdbStorage) (containerName : string)
    (numStats : Z) : string :=
  let query :=
    ("select * from " ++ tableName self ++ " where " ++ colContainerName
       ++ "='" ++ containerName ++ "' and " ++ colMachineName ++ "='"
       ++ machineName self ++ "'")%string in
  if 0 <? numStats then (query ++ " limit " ++ pretty numStats)%string
  else query.

(** func (self *influxdbStorage) RecentStats(containerName string,
    numStats int), returning the samples and an error. *)
Definition RecentStats (containerName : string) (numStats : Z)
    : M (list ContainerStats) :=
  if numStats =? 0 then ret []
  else
    w <- get ;;
    let query := RecentStats_query (self w) containerName numStats in
    c <- lift (deref (client (self w))) ;;
    emit (EvQuery query) ;;;
    match Query c query with
    | (_, Some err) => lift (Err err)
    | (series, None) =>
        lift (RecentStats_series (self w) series (length series) [])
    end.

(** func (self *influxdbStorage) Close() error *)
Definition Close : M unit :=
  modify (fun w => with_self (set_client None (self w)) w).

(** func New(machineName, tablename, database, username, password,
    influxdbHost string, isSecure bool, bufferDuration time.Duration).
    [NewClient] is the client library's constructor, an oracle here; the
    call client.DisableCompression() changes nothing the model records.
    The result is the new storage. *)
Definition New (NewClient : ClientConfig -> Client + error)
    (machineName tablename database username password influxdbHost : string)
    (isSecure : bool) (bufferDuration : Z) : M influxdbStorage :=
  let config := {| Host := influxdbHost; Username := username;
                   Password := password; Database := database;
                   IsSecure := isSecure |} in
  match NewClient config with
  | inr err => lift (Err err)
  | inl client =>
      now <- time_Now ;;
      ret {| client := Some client;
             machineName := machineName;
             tableName := tablename;
             bufferDuration := bufferDuration;
             lastWrite := now;
             series := [];
             readyToFlush := policyDefault |}
  end.

End Driver.

(** ** Vocabulary of the specifications *)

(** [m] run in [w] returns normally, with a result and final world
    satisfying [Q]. *)
Definition returns {A} (m : M A) (w : world) (Q : A -> world -> Prop) : Prop :=
  match m w with
  | (Ok a, w') => Q a w'
  | _ => False
  end.

(** Only memory differs between [w] and [w']. *)
Definition only_mem (w w' : world) : Prop :=
  self w' = self w /\ clock w' = clock w /\ ticks w' = ticks w
  /\ trace w' = trace w.

(** Every backing array of [w0] is still there, untouched, in [w]. *)
Definition mem_ext (w0 w : world) : Prop :=
  strings w0 `prefix_of` strings w /\ ifaces w0 `prefix_of` ifaces w.

(** The headers [c] and [v] of a row under construction since [w0]: they
    hold [cols] and [vals], and appending to them stays clear of the
    arrays of [w0]. *)
Definition building (w0 w : world) (c v : slice)
    (cols : list string) (vals : list value) : Prop :=
  only_mem w0 w /\ mem_ext w0 w
  /\ wf (strings w) c /\ owned (length (strings w0)) c
  /\ view (strings w) c = cols
  /\ wf (ifaces w) v /\ owned (length (ifaces w0)) v
  /\ view (ifaces w) v = vals.

(** The headers [c0] and [v0] a caller kept while a callee appends to its
    copies [c] and [v] of them. *)
Definition kept (w : world) (c0 v0 : slice) (cols0 : list string)
    (vals0 : list value) (c v : slice) : Prop :=
  wf (strings w) c0 /\ view (strings w) c0 = cols0
  /\ (s_len c0 <= s_len c)%nat
  /\ wf (ifaces w) v0 /\ view (ifaces w) v0 = vals0
  /\ (s_len v0 <= s_len v)%nat.

(** A finished row: a series of one point, named [name], holding [cols]
    and [vals]. *)
Definition row (w : world) (s : SeriesRef) (name : string)
    (cols : list string) (vals : list value) : Prop :=
  s_Name s = name
  /\ wf (strings w) (Columns s) /\ view (strings w) (Columns s) = cols
  /\ exists p, Points s = [p] /\ wf (ifaces w) p /\ view (ifaces w) p = vals.

(** The metric columns and values of the core row of a sample. *)
Definition coreColumns (st : ContainerStats) : list string :=
  [colCpuCumulativeUsage; colMemoryUsage; colMemoryWorkingSet]
  ++ match Network st with
     | Some _ => [colRxBytes; colRxErrors; colTxBytes; colTxErrors]
     | None => []
     end.

Definition coreValues (cpu : CpuStats) (mem : MemoryStats)
    (net : option NetworkStats) : list value :=
  [VUint64 (Total (cpu_Usage cpu)); VUint64 (mem_Usage mem);
   VUint64 (WorkingSet mem)]
  ++ match net with
     | Some n => [VUint64 (RxBytes n); VUint64 (RxErrors n);
                  VUint64 (TxBytes n); VUint64 (TxErrors n)]
     | None => []
     end.

(** The columns and values of the row of one filesystem entry. *)
Definition fsColumns : list string := [colFsDevice; colFsLimit; colFsUsage].

Definition fsValues (f : FsStats) : list value :=
  [VString (Device f); VUint64 (Limit f); VUint64 (fs_Usage f)].

(** The rows one sample is turned into: the core row, then one row per
    filesystem entry. *)
Definition sampleRows (name : string) (st : ContainerStats) (cpu : CpuStats)
    (mem : MemoryStats) : list SeriesData :=
  mkSeries name (coreColumns st) [coreValues cpu mem (Network st)]
  :: map (fun f => mkSeries name fsColumns [fsValues f]) (Filesystem st).

(** What [self.readyToFlush()] answers when called in a world that differs
    from [w] by its memory and by the pending batch, now [pending]; and how
    many clock readings the call takes. *)
Definition policy_ready (w : world) (pending : list SeriesRef) : bool :=
  match readyToFlush (self w) with
  | policyDefault =>
      bufferDuration (self w)
      <=? Time_Sub (clock w (ticks w)) (lastWrite (self w))
  | policyOverride f => f pending
  end.

Definition policy_reads (w : world) : nat :=
  match readyToFlush (self w) with
  | policyDefault => 1
  | policyOverride _ => 0
  end.

(** The columns whose values go through convertToUint64, and the network
    ones among them. *)
Definition networkColumns : list string :=
  [colRxBytes; colRxErrors; colTxBytes; colTxErrors].

Definition numericColumns : list string :=
  [colCpuCumulativeUsage; colMemoryUsage; colMemoryWorkingSet]
  ++ networkColumns ++ [colFsLimit; colFsUsage].

(** An error that names the column [col] and carries the raw value [v]
    (the two filesystem messages name their column in words). *)
Definition identifies (col : string) (v : value) (e : error) : Prop :=
  match e with
  | errColumnInvalid col' v' _ => col' = col /\ v' = v
  | errFsLimitInvalid v' _ => col = colFsLimit /\ v' = v
  | errFsUsageInvalid v' _ => col = colFsUsage /\ v' = v
  | _ => False
  end.

(** The sub-records of a reconstructed sample are all allocated and its
    filesystem list has at most one entry. *)
Definition allocated (st : ContainerStats) : Prop :=
  Cpu st <> None /\ Memory st <> None /\ Network st <> None
  /\ (length (Filesystem st) <= 1)%nat.

Definition zeroNetwork : NetworkStats :=
  {| RxBytes := 0; RxErrors := 0; TxBytes := 0; TxErrors := 0 |}.

(** [t.Before(u)] *)
Definition Time_Before (t u : Time) : Prop :=
  t_sec t < t_sec u \/ (t_sec t = t_sec u /\ t_nsec t < t_nsec u).

(** Samples in strictly ascending, respectively descending, time order. *)
Definition time_ascending (l : list ContainerStats) : Prop :=
  StronglySorted (fun a b => Time_Before (Timestamp a) (Timestamp b)) l.

Definition time_descending (l : list ContainerStats) : Prop :=
  StronglySorted (fun a b => Time_Before (Timestamp b) (Timestamp a)) l.

(** The points of a query result as rows (columns, values), in the order
    the store returned them. *)
Definition storeRows (series : list SeriesData)
    : list (list string * list value) :=
  flat_map (fun s => map (fun p => (Columns s, p)) (Points s)) series.

(** Reconstruction of a list of rows in the given order, stopping at the
    first row that fails: what the spec asks of the read path, given the
    rows in the order they are to be returned. *)
Fixpoint reconstructAll (rec : list string * list value -> result (option ContainerStats))
    (rows : list (list string * list value)) (acc : list ContainerStats)
    : result (list ContainerStats) :=
  match rows with
  | [] => Ok acc
  | r :: rows' =>
      match rec r with
      | Ok (Some st) => reconstructAll rec rows' (acc ++ [st])
      | Ok None => reconstructAll rec rows' acc
      | Err e => Err e
      | Panic p => Panic p
      end
  end.

(** The host-identity law as the spec words it: a host column whose string
    differs from the expected host makes reconstruction fail with the
    "different machine" error, whatever the other columns hold. *)
Definition host_mismatch_law (impl : GoImpl) (self : influxdbStorage)
    (columns : list string) (values : list value) : Prop :=
  forall i m,
    columns !! i = Some colMachineName -> values !! i = Some (VString m) ->
    m <> machineName self ->
    valuesToContainerStats impl self columns values = Err errDifferentMachine.

(** The round-trip law as the spec words it, for one sample: the core row
    produced by the write path, fed back to the read path under the same
    host, gives back the CPU, memory and (if present) network values, and
    the timestamp to the microsecond. *)
Definition roundtrip_law (impl : GoImpl) (ref : ContainerReference)
    (st : ContainerStats) (w : world) : Prop :=
  returns (containerStatsToValues impl ref (Some st)) w (fun cv w' =>
    exists st',
      valuesToContainerStats impl (self w)
        (view (strings w') (fst cv)) (view (ifaces w') (snd cv))
      = Ok (Some st')
      /\ Cpu st' = Cpu st /\ Memory st' = Memory st
      /\ (Network st <> None -> Network st' = Network st)
      /\ Z.quot (Time_UnixNano (Timestamp st')) 1000
         = Z.quot (Time_UnixNano (Timestamp st)) 1000).

(** ** Sample inputs *)

(** A Go implementation that doubles the capacity of a slice it moves and
    yields the smallest integer for unrepresentable float conversions. *)
Definition sampleImpl : GoImpl :=
  {| f64_to_uint64_unrepresentable := fun _ => two63;
     f64_to_int64_unrepresentable := fun _ => - two63;
     growslice := fun c _ => (2 * c)%nat |}.

Definition sampleClient : Client :=
  {| WriteSeriesWithTimePrecision := fun _ _ => Some (errStore "connection refused");
     Query := fun _ => ([], None) |}.

Definition sampleStorage : influxdbStorage :=
  {| client := Some sampleClient;
     machineName := "machine-A";
     tableName := "stats";
     bufferDuration := 1000000000;
     lastWrite := mkTime (unixToInternal + 1400000000) 0;
     series := [];
     readyToFlush := policyOverride (fun _ => true) |}.

Definition sampleWorld : world :=
  {| self := sampleStorage;
     strings := [];
     ifaces := [];
     clock := fun n => mkTime 63535596860 (Z.of_nat n);
     ticks := 0;
     trace := [] |}.

Definition sampleRef : ContainerReference :=
  {| Name := "/docker/abc"; Aliases := ["web"] |}.

Definition sampleCpu : CpuStats := {| cpu_Usage := {| Total := 7000 |} |}.

Definition sampleMemory : MemoryStats :=
  {| mem_Usage := 4096; WorkingSet := 1024 |}.

Definition sampleNetwork : NetworkStats :=
  {| RxBytes := 10; RxErrors := 1; TxBytes := 20; TxErrors := 2 |}.

(** A sample with two filesystem entries, taken at Unix time
    1400000030.000005 s. *)
Definition sampleStats : ContainerStats :=
  {| Timestamp := mkTime (unixToInternal + 1400000030) 5000;
     Cpu := Some sampleCpu;
     Memory := Some sampleMemory;
     Network := Some sampleNetwork;
     Filesystem := [ {| Device := "/dev/sda1"; Limit := 100; fs_Usage := 40 |};
                     {| Device := "/dev/sdb1"; Limit := 200; fs_Usage := 50 |} ] |}.

(** The same sample without filesystem entries. *)
Definition sampleStatsNoFs : ContainerStats := set_Filesystem [] sampleStats.

(** A store answering every query with two series in its native,
    time-descending order: S2 with points at 30 s and 20 s, then S1 with a
    point at 10 s (times in milliseconds, as float64). *)
Definition sampleQueryClient : Client :=
  {| WriteSeriesWithTimePrecision := fun _ _ => None;
     Query := fun _ =>
       ([ mkSeries "stats" [colTimestamp; colMachineName; colCpuCumulativeUsage]
            [ [VFloat64 (S754_finite false 30000 0); VString "machine-A";
               VFloat64 (S754_finite false 3 0)];
              [VFloat64 (S754_finite false 20000 0); VString "machine-A";
               VFloat64 (S754_finite false 2 0)] ];
          mkSeries "stats" [colTimestamp; colMachineName; colCpuCumulativeUsage]
            [ [VFloat64 (S754_finite false 10000 0); VString "machine-A";
               VFloat64 (S754_finite false 1 0)] ] ],
        None) |}.

Definition sampleQueryWorld : world :=
  with_self (set_client (Some sampleQueryClient) sampleStorage) sampleWorld.

(** The sample reconstructed from a point at Unix time [sec] with CPU
    usage [total]. *)
Definition sampleAt (sec total : Z) : ContainerStats :=
  {| Timestamp := mkTime (unixToInternal + sec) 0;
     Cpu := Some {| cpu_Usage := {| Total := total |} |};
     Memory := Some {| mem_Usage := 0; WorkingSet := 0 |};
     Network := Some zeroNetwork;
     Filesystem := [] |}.

(** A storage as New builds it, closed since: default policy, a buffer
    duration of two minutes, last write one minute before the first clock
    reading of [sampleWorld], and no client. *)
Definition sampleDefaultStorage : influxdbStorage :=
  {| client := None;
     machineName := "machine-A";
     tableName := "stats";
     bufferDuration := 120000000000;
     lastWrite := mkTime 63535596800 0;
     series := [];
     readyToFlush := policyDefault |}.

Definition sampleDefaultWorld : world := with_self sampleDefaultStorage sampleWorld.

(** [sampleWorld] with a row-count policy: flush once four rows are
    pending. *)
Definition sampleThresholdWorld : world :=
  with_self (set_readyToFlush
               (policyOverride (fun l => (4 <=? length l)%nat)) sampleStorage)
    sampleWorld.

(** ** Further vocabulary *)

(** A series whose column and point headers are well formed in the memory
    of [w]. *)
Definition series_wf (w : world) (s : SeriesRef) : Prop :=
  wf (strings w) (Columns s) /\ Forall (wf (ifaces w)) (Points s).

(** The three default values getSeriesDefaultValues computes: the time in
    microseconds, the host and the container identity (first alias, else
    the name). *)
Definition defaultValues (self : influxdbStorage) (ref : ContainerReference)
    (st : ContainerStats) : list value :=
  [VInt64 (Z.quot (Time_UnixNano (Timestamp st)) 1000);
   VString (machineName self);
   VString match Aliases ref with
           | a0 :: _ => a0
           | [] => Name ref
           end].

(** The columns the switch of valuesToContainerStats has a case for. *)
Definition recognizedColumns : list string :=
  [colTimestamp; colMachineName] ++ numericColumns ++ [colFsDevice].

(** The time a time column holding the float64 [x] is decoded to. *)
Definition decodedTime (impl : GoImpl) (x : float64) : Time :=
  let n := f64_to_int64 impl x in
  time_Unix (Z.quot n 1000) (int64 (Z.rem n 1000 * 1000000)).

(** Trace events that are store writes. *)
Definition is_write (e : event) : bool :=
  match e with EvWriteSeries _ _ => true | _ => false end.

(** The field of a sample a numeric column is stored in (for the two
    filesystem columns, in the first filesystem entry). *)
Definition numericField (col : string) (st : ContainerStats) : option Z :=
  if String.eqb col colCpuCumulativeUsage then
    option_map (fun c => Total (cpu_Usage c)) (Cpu st)
  else if String.eqb col colMemoryUsage then option_map mem_Usage (Memory st)
  else if String.eqb col colMemoryWorkingSet then option_map WorkingSet (Memory st)
  else if String.eqb col colRxBytes then option_map RxBytes (Network st)
  else if String.eqb col colRxErrors then option_map RxErrors (Network st)
  else if String.eqb col colTxBytes then option_map TxBytes (Network st)
  else if String.eqb col colTxErrors then option_map TxErrors (Network st)
  else if String.eqb col colFsLimit then option_map Limit (head (Filesystem st))
  else if String.eqb col colFsUsage then option_map fs_Usage (head (Filesystem st))
  else None.

(** * Properties *)

(** ** Slices and their backing arrays *)

Section SliceFacts.
Context {A : Type}.
Variable zero : A.
Variable impl : GoImpl.
Implicit Types (h : heap A) (s t : slice) (x : A).

Lemma view_length h s : wf h s -> length (view h s) = s_len s.
Proof.
  intros [Hle [H0 | (a & Ha & Hlen)]]; unfold view.
  - assert (s_len s = 0)%nat as -> by lia. reflexivity.
  - rewrite Ha. simpl. rewrite length_take. lia.
Qed.

(** Arrays are never removed or replaced once allocated below a slice's
    reach: a well-formed header reads the same in every extension. *)
Lemma wf_prefix h h' s : wf h s -> h `prefix_of` h' -> wf h' s.
Proof.
  intros [Hle [H0 | (a & Ha & Hlen)]] [ext ->]; split; auto.
  right. exists a. split; [| exact Hlen].
  apply lookup_app_l_Some. exact Ha.
Qed.

Lemma view_prefix h h' s : wf h s -> h `prefix_of` h' -> view h' s = view h s.
Proof.
  intros [Hle [H0 | (a & Ha & Hlen)]] [ext ->]; unfold view.
  - assert (s_len s = 0)%nat as -> by lia. reflexivity.
  - rewrite (lookup_app_l_Some _ _ _ _ Ha), Ha. reflexivity.
Qed.

(** [append] returns a header whose elements are the old ones followed by
    the new one; when the header is owned above [length h0] the arrays
    below are left alone. *)
Lemma append_spec h0 h s x :
  wf h s -> owned (length h0) s -> h0 `prefix_of` h ->
  let '(s', h') := append zero impl h s x in
  view h' s' = view h s ++ [x] /\ wf h' s' /\ owned (length h0) s'
  /\ h0 `prefix_of` h'.
Proof.
  intros Hwf Hown [ext ->]. unfold append.
  destruct (decide (s_len s < s_cap s)%nat) as [Hlt | Hge].
  - destruct Hwf as [Hle [H0 | (a & Ha & Hlen)]]; [lia |].
    destruct Hown as [H0 | Hown]; [lia |].
    assert (Hin : (s_arr s < length (h0 ++ ext))%nat)
      by (eapply lookup_lt_Some; eauto).
    split; [| split; [split |]; [| | split]]; simpl.
    + unfold view; simpl. rewrite list_lookup_alter_eq, Ha. simpl.
      rewrite (take_S_r _ _ x).
      * f_equal. apply take_insert_ge. lia.
      * apply list_lookup_insert_eq. lia.
    + lia.
    + right. exists (<[s_len s := x]> a). split.
      * rewrite list_lookup_alter_eq, Ha. reflexivity.
      * rewrite length_insert. exact Hlen.
    + now right.
    + exists (alter (fun a => <[s_len s := x]> a) (s_arr s - length h0)%nat ext).
      rewrite alter_app_r_alt by lia. reflexivity.
  - set (c := Nat.max (S (s_len s)) (growslice impl (s_cap s) (S (s_len s)))).
    assert (Hv : length (view (h0 ++ ext) s) = s_len s) by (apply view_length; auto).
    split; [| split; [split |]; [| | split]]; simpl.
    + unfold view at 1; simpl.
      rewrite lookup_app_r by lia. rewrite Nat.sub_diag. simpl.
      rewrite take_app_ge by lia. f_equal.
      replace (S (s_len s) - length (view (h0 ++ ext) s))%nat with 1%nat by lia.
      reflexivity.
    + lia.
    + right. exists (view (h0 ++ ext) s ++ x :: replicate (c - S (s_len s)) zero).
      split.
      * rewrite lookup_app_r by lia. rewrite Nat.sub_diag. reflexivity.
      * rewrite length_app, Hv. cbn [length]. rewrite length_replicate.
        pose proof (Nat.le_max_l (S (s_len s))
                      (growslice impl (s_cap s) (S (s_len s)))) as Hmax.
        fold c in Hmax. clearbody c. lia.
    + right. cbn [s_arr]. rewrite length_app. lia.
    + eexists (ext ++ [_]). rewrite (assoc_L (++)). reflexivity.
Qed.

End SliceFacts.

Section SliceKeeps.
Context {A : Type}.
Variable zero : A.
Variable impl : GoImpl.
Implicit Types (h : heap A) (s t : slice) (x : A).

(** Appending to [s] does not change what a header [t] that is no longer
    than [s] holds, whether or not the two share an array. *)
Lemma append_keeps h s t x :
  wf h s -> wf h t -> (s_len t <= s_len s)%nat ->
  let '(s', h') := append zero impl h s x in
  wf h' t /\ view h' t = view h t /\ (s_len t <= s_len s')%nat.
Proof.
  intros Hs Ht Hle. unfold append.
  destruct (decide (s_len s < s_cap s)%nat) as [Hlt | Hge]; cbn [s_len].
  - split; [| split; [| lia]].
    + destruct Ht as [Hlet [H0 | (a & Ha & Hlen)]]; split; auto.
      right. destruct (decide (s_arr s = s_arr t)) as [Heq | Hne].
      * exists (<[s_len s := x]> a). rewrite Heq, list_lookup_alter_eq, Ha.
        split; [reflexivity | now rewrite length_insert].
      * exists a. rewrite list_lookup_alter_ne by exact Hne. auto.
    + unfold view. destruct (decide (s_arr s = s_arr t)) as [Heq | Hne].
      * rewrite Heq, list_lookup_alter_eq.
        destruct (h !! s_arr t) as [a |]; [| reflexivity]. simpl.
        apply take_insert_ge. exact Hle.
      * rewrite list_lookup_alter_ne by exact Hne. reflexivity.
  - assert (Hpre : h `prefix_of` h ++ [view h s ++ x :: replicate
               (Nat.max (S (s_len s)) (growslice impl (s_cap s) (S (s_len s)))
                - S (s_len s)) zero]) by (now eexists).
    split; [| split; [| lia]].
    + eapply wf_prefix; eauto.
    + apply view_prefix; auto.
Qed.

End SliceKeeps.

(** ** Rules for running method bodies *)

Lemma returns_ret {A} (a : A) w (Q : A -> world -> Prop) :
  Q a w -> returns (ret a) w Q.
Proof. intros H. exact H. Qed.

Lemma returns_bind {A B} (m : M A) (k : A -> M B) w (Q : B -> world -> Prop) :
  returns m w (fun a w' => returns (k a) w' Q) -> returns (bind m k) w Q.
Proof.
  unfold returns, bind. destruct (m w) as [[a | e | p] w']; auto.
Qed.

Lemma returns_conseq {A} (m : M A) w (Q Q' : A -> world -> Prop) :
  returns m w Q -> (forall a w', Q a w' -> Q' a w') -> returns m w Q'.
Proof.
  unfold returns. destruct (m w) as [[a | e | p] w']; auto.
Qed.

Lemma returns_get w (Q : world -> world -> Prop) : Q w w -> returns get w Q.
Proof. intros H. exact H. Qed.

Lemma returns_lift {A} (a : A) w (Q : A -> world -> Prop) :
  Q a w -> returns (lift (Ok a)) w Q.
Proof. intros H. exact H. Qed.

Lemma returns_run {A} (m : M A) w (Q : A -> world -> Prop) :
  returns m w Q -> exists a w', m w = (Ok a, w') /\ Q a w'.
Proof.
  unfold returns. destruct (m w) as [[a | e | p] w']; try contradiction.
  eauto.
Qed.

Lemma only_mem_refl w : only_mem w w.
Proof. repeat split. Qed.

Lemma only_mem_trans w1 w2 w3 : only_mem w1 w2 -> only_mem w2 w3 -> only_mem w1 w3.
Proof.
  intros (? & ? & ? & ?) (? & ? & ? & ?). repeat split; congruence.
Qed.

Lemma mem_ext_refl w : mem_ext w w.
Proof. split; reflexivity. Qed.

Lemma mem_ext_trans w1 w2 w3 : mem_ext w1 w2 -> mem_ext w2 w3 -> mem_ext w1 w3.
Proof. intros [? ?] [? ?]. split; etrans; eauto. Qed.

Lemma building_start w : building w w nilSlice nilSlice [] [].
Proof.
  unfold building. split; [apply only_mem_refl |]. split; [apply mem_ext_refl |].
  repeat split; simpl; try lia; now left.
Qed.

Lemma row_ext w w' s name cols vals :
  row w s name cols vals -> mem_ext w w' -> row w' s name cols vals.
Proof.
  intros (Hn & Hwc & Hvc & p & Hp & Hwp & Hvp) [Hs Hi].
  split; [exact Hn |]. split; [eapply wf_prefix; eauto |].
  split; [rewrite <- Hvc; apply view_prefix; auto |].
  exists p. split; [exact Hp |]. split; [eapply wf_prefix; eauto |].
  rewrite <- Hvp. apply view_prefix; auto.
Qed.

Lemma row_data w s name cols vals :
  row w s name cols vals -> series_data w s = mkSeries name cols [vals].
Proof.
  intros (Hn & _ & Hvc & p & Hp & _ & Hvp). unfold series_data.
  rewrite Hn, Hvc, Hp. simpl. rewrite Hvp. reflexivity.
Qed.

(** ** The write path: rows under construction *)

Section WritePath.
Variable impl : GoImpl.

Lemma kept_nil w c v : kept w nilSlice nilSlice [] [] c v.
Proof.
  unfold kept. repeat split; simpl; try lia; now left.
Qed.

Lemma appendS_kept w0 w c v cols vals c0 v0 cols0 vals0 x :
  building w0 w c v cols vals -> kept w c0 v0 cols0 vals0 c v ->
  returns (appendS impl c x) w (fun c' w' =>
    building w0 w' c' v (cols ++ [x]) vals /\ kept w' c0 v0 cols0 vals0 c' v).
Proof.
  intros (Hom & [Hes Hei] & Hwc & Hoc & Hvc & Hwv & Hov & Hvv)
         (Hk1 & Hk2 & Hk3 & Hk4 & Hk5 & Hk6).
  unfold returns, appendS.
  pose proof (append_spec "" impl (strings w0) (strings w) c x Hwc Hoc Hes) as Ha.
  pose proof (append_keeps "" impl (strings w) c c0 x Hwc Hk1 Hk3) as Hb.
  destruct (append "" impl (strings w) c x) as [c' h'].
  destruct Ha as (Ha1 & Ha2 & Ha3 & Ha4). destruct Hb as (Hb1 & Hb2 & Hb3).
  destruct Hom as (? & ? & ? & ?).
  split.
  - unfold building, only_mem, mem_ext.
    cbn [strings ifaces self clock ticks trace with_strings].
    split_and!; auto. rewrite Ha1, Hvc. reflexivity.
  - unfold kept. cbn [strings ifaces with_strings s_len].
    split_and!; auto. congruence.
Qed.

Lemma appendV_kept w0 w c v cols vals c0 v0 cols0 vals0 x :
  building w0 w c v cols vals -> kept w c0 v0 cols0 vals0 c v ->
  returns (appendV impl v x) w (fun v' w' =>
    building w0 w' c v' cols (vals ++ [x]) /\ kept w' c0 v0 cols0 vals0 c v').
Proof.
  intros (Hom & [Hes Hei] & Hwc & Hoc & Hvc & Hwv & Hov & Hvv)
         (Hk1 & Hk2 & Hk3 & Hk4 & Hk5 & Hk6).
  unfold returns, appendV.
  pose proof (append_spec VNil impl (ifaces w0) (ifaces w) v x Hwv Hov Hei) as Ha.
  pose proof (append_keeps VNil impl (ifaces w) v v0 x Hwv Hk4 Hk6) as Hb.
  destruct (append VNil impl (ifaces w) v x) as [v' h'].
  destruct Ha as (Ha1 & Ha2 & Ha3 & Ha4). destruct Hb as (Hb1 & Hb2 & Hb3).
  destruct Hom as (? & ? & ? & ?).
  split.
  - unfold building, only_mem, mem_ext.
    cbn [strings ifaces self clock ticks trace with_ifaces].
    split_and!; auto. rewrite Ha1, Hvv. reflexivity.
  - unfold kept. cbn [strings ifaces with_ifaces s_len].
    split_and!; auto. congruence.
Qed.

Lemma appendS_step w0 w c v cols vals x :
  building w0 w c v cols vals ->
  returns (appendS impl c x) w (fun c' w' =>
    building w0 w' c' v (cols ++ [x]) vals).
Proof.
  intros Hb. eapply returns_conseq.
  - eapply appendS_kept; [exact Hb | apply kept_nil].
  - simpl. intros ? ? [H _]. exact H.
Qed.

Lemma appendV_step w0 w c v cols vals x :
  building w0 w c v cols vals ->
  returns (appendV impl v x) w (fun v' w' =>
    building w0 w' c v' cols (vals ++ [x])).
Proof.
  intros Hb. eapply returns_conseq.
  - eapply appendV_kept; [exact Hb | apply kept_nil].
  - simpl. intros ? ? [H _]. exact H.
Qed.

(** getSeriesDefaultValues returns with the caller's two slices holding
    exactly what they held before the call: what the function appended is
    reachable only through its own copies of the headers. *)
Lemma getSeriesDefaultValues_keeps ref st w0 w c v cols vals :
  building w0 w c v cols vals ->
  returns (getSeriesDefaultValues impl ref (Some st) c v) w (fun _ w' =>
    building w0 w' c v cols vals).
Proof.
  intros Hb.
  assert (Hk : kept w c v cols vals c v).
  { destruct Hb as (_ & _ & Hwc & _ & Hvc & Hwv & _ & Hvv).
    unfold kept. split_and!; auto. }
  assert (Hown : owned (length (strings w0)) c /\ owned (length (ifaces w0)) v).
  { destruct Hb as (_ & _ & _ & Hoc & _ & _ & Hov & _). auto. }
  unfold getSeriesDefaultValues.
  apply returns_bind. eapply returns_conseq; [eapply appendS_kept; eauto |].
  cbv beta. clear Hb Hk. intros c1 w1 [Hb Hk].
  apply returns_bind. apply returns_lift.
  apply returns_bind. eapply returns_conseq; [eapply appendV_kept; eauto |].
  cbv beta. clear Hb Hk. intros v1 w2 [Hb Hk].
  apply returns_bind. eapply returns_conseq; [eapply appendS_kept; eauto |].
  cbv beta. clear Hb Hk. intros c2 w3 [Hb Hk].
  apply returns_bind. apply returns_get.
  apply returns_bind. eapply returns_conseq; [eapply appendV_kept; eauto |].
  cbv beta. clear Hb Hk. intros v2 w4 [Hb Hk].
  apply returns_bind. eapply returns_conseq; [eapply appendS_kept; eauto |].
  cbv beta. clear Hb Hk. intros c3 w5 [Hb Hk].
  apply returns_bind.
  eapply returns_conseq.
  { instantiate (1 := fun v' w' =>
      exists vals', building w0 w' c3 v' (((cols ++ [colTimestamp]) ++ [colMachineName]) ++ [colContainerName]) vals'
      /\ kept w' c v cols vals c3 v').
    destruct (Aliases ref) as [| a0 rest].
    - eapply returns_conseq; [eapply appendV_kept; eauto |].
      cbv beta. intros ? ? [? ?]. eauto.
    - eapply returns_conseq; [eapply appendV_kept; eauto |].
      cbv beta. intros ? ? [? ?]. eauto. }
  cbv beta. clear Hb Hk. intros v3 w6 (vals' & Hb & Hk).
  apply returns_ret.
  destruct Hb as (Hom & Hext & _ & _ & _ & _ & _ & _).
  destruct Hk as (Hk1 & Hk2 & _ & Hk4 & Hk5 & _). destruct Hown.
  unfold building. split_and!; auto.
Qed.

Ltac app_step Hb :=
  apply returns_bind; eapply returns_conseq;
  [first [eapply appendS_step | eapply appendV_step]; exact Hb |];
  cbv beta; clear Hb; intros ? ? Hb.

(** The core row: its columns and values are the metric ones only. *)
Lemma containerStatsToValues_spec ref st cpu mem w :
  Cpu st = Some cpu -> Memory st = Some mem ->
  returns (containerStatsToValues impl ref (Some st)) w (fun cv w' =>
    building w w' (fst cv) (snd cv)
      (coreColumns st) (coreValues cpu mem (Network st))).
Proof.
  intros Hcpu Hmem. unfold containerStatsToValues.
  apply returns_bind. eapply returns_conseq;
    [apply getSeriesDefaultValues_keeps; apply building_start |].
  cbv beta. intros _ w1 Hb.
  apply returns_bind. apply returns_lift.
  app_step Hb. rewrite Hcpu. apply returns_bind. apply returns_lift.
  app_step Hb. app_step Hb. rewrite Hmem. apply returns_bind. apply returns_lift.
  app_step Hb. app_step Hb. app_step Hb.
  unfold coreColumns, coreValues.
  destruct (Network st) as [net |].
  - do 8 app_step Hb. apply returns_ret. exact Hb.
  - apply returns_ret. exact Hb.
Qed.

Lemma make_start w :
  returns makeS w (fun c w1 =>
    returns makeV w1 (fun v w2 => building w w2 c v [] [])).
Proof.
  unfold returns, makeS, makeV, make0, building, only_mem, mem_ext, wf, owned, view.
  cbn. split_and!; auto; try lia; try (now left); now eexists.
Qed.

(** A row under construction, once wrapped by newSeries, is a row. *)
Lemma newSeries_spec w0 w c v cols vals :
  building w0 w c v cols vals ->
  returns (newSeries c v) w (fun s w' =>
    w' = w /\ row w s (tableName (self w0)) cols vals).
Proof.
  intros (Hom & _ & Hwc & _ & Hvc & Hwv & _ & Hvv).
  unfold returns, newSeries, bind, get, ret, row. cbn.
  destruct Hom as (Hs & _). rewrite Hs.
  split_and!; auto. exists v. auto.
Qed.

Lemma building_frame w0 w c v cols vals :
  building w0 w c v cols vals -> only_mem w0 w /\ mem_ext w0 w.
Proof. intros (? & ? & _). auto. Qed.

(** The filesystem loop adds one row per entry, in order, each holding the
    three filesystem columns and that entry's values; rows built earlier
    are not disturbed. *)
Lemma containerFilesystemStatsToSeries_loop_spec ref st fs :
  forall acc w,
  returns (containerFilesystemStatsToSeries_loop impl ref (Some st) fs acc) w
    (fun res w' =>
       only_mem w w' /\ mem_ext w w'
       /\ exists new, res = acc ++ new
          /\ Forall2 (fun s f => row w' s (tableName (self w)) fsColumns (fsValues f))
               new fs).
Proof.
  induction fs as [| fsStat fs' IH]; intros acc w.
  - apply returns_ret. split; [apply only_mem_refl |].
    split; [apply mem_ext_refl |]. exists []. split; [now rewrite app_nil_r |].
    constructor.
  - cbn [containerFilesystemStatsToSeries_loop].
    apply returns_bind. eapply returns_conseq; [apply make_start |].
    cbv beta. intros c w1 Hmk.
    apply returns_bind. eapply returns_conseq; [exact Hmk |].
    cbv beta. clear Hmk. intros v w2 Hb.
    apply returns_bind. eapply returns_conseq;
      [apply getSeriesDefaultValues_keeps; exact Hb |].
    cbv beta. clear Hb. intros _ w3 Hb.
    do 6 app_step Hb.
    apply returns_bind. eapply returns_conseq; [eapply newSeries_spec; exact Hb |].
    cbv beta. intros s wn [-> Hrow].
    destruct (building_frame _ _ _ _ _ _ Hb) as [Hom Hext]. clear Hb.
    eapply returns_conseq; [apply IH |].
    cbv beta. intros res wf' (Hom' & Hext' & new & -> & Hall).
    split; [eapply only_mem_trans; eauto |].
    split; [eapply mem_ext_trans; eauto |].
    exists (s :: new). split; [now rewrite <- (assoc_L (++)) |].
    constructor.
    + eapply row_ext; eauto.
    + destruct Hom as (Hs & _). rewrite <- Hs. exact Hall.
Qed.

Lemma containerFilesystemStatsToSeries_spec ref st w :
  returns (containerFilesystemStatsToSeries impl ref (Some st)) w
    (fun res w' =>
       only_mem w w' /\ mem_ext w w'
       /\ Forall2 (fun s f => row w' s (tableName (self w)) fsColumns (fsValues f))
            res (Filesystem st)).
Proof.
  unfold containerFilesystemStatsToSeries.
  apply returns_bind, returns_lift.
  destruct (Filesystem st) as [| f fs] eqn:Hfs.
  - apply returns_ret. split; [apply only_mem_refl |].
    split; [apply mem_ext_refl | constructor].
  - cbn [length Nat.eqb].
    eapply returns_conseq; [apply containerFilesystemStatsToSeries_loop_spec |].
    cbv beta. intros res w' (Hom & Hext & new & -> & Hall). auto.
Qed.

Lemma returns_emit e w (Q : unit -> world -> Prop) :
  Q tt (with_trace (trace w ++ [e]) w) -> returns (emit e) w Q.
Proof. intros H. exact H. Qed.

Lemma returns_assign_series l w (Q : unit -> world -> Prop) :
  Q tt (with_trace (trace w ++ [EvSetSeries l])
          (with_self (set_series l (self w)) w)) ->
  returns (assign_series l) w Q.
Proof. intros H. exact H. Qed.

Lemma returns_assign_lastWrite t w (Q : unit -> world -> Prop) :
  Q tt (with_trace (trace w ++ [EvSetLastWrite t])
          (with_self (set_lastWrite t (self w)) w)) ->
  returns (assign_lastWrite t) w Q.
Proof. intros H. exact H. Qed.

Lemma returns_defer_emit {A} e (body : M A) w (Q : A -> world -> Prop) :
  returns body w (fun a w' => Q a (with_trace (trace w' ++ [e]) w')) ->
  returns (defer (emit e) body) w Q.
Proof.
  unfold returns, defer. destruct (body w) as [[a | err | p] w']; auto.
Qed.

Lemma returns_time_Now w (Q : Time -> world -> Prop) :
  Q (clock w (ticks w)) (with_ticks (S (ticks w)) w) -> returns time_Now w Q.
Proof. intros H. exact H. Qed.

(** The locked section of AddStats, for a sample with CPU and memory data:
    the rows it appends, the decision it takes, every field it leaves
    behind, and the well-formedness of the new rows in the final memory. *)
Lemma AddStats_func1_rows ref st cpu mem w :
  Cpu st = Some cpu -> Memory st = Some mem ->
  returns (AddStats_func1 impl ref (Some st)) w (fun batch w' =>
    exists core fsrows,
      let pending := series (self w) ++ core :: fsrows in
      let ready := policy_ready w pending in
      let t := clock w (ticks w + policy_reads w)%nat in
      map (series_data w') (core :: fsrows)
        = sampleRows (tableName (self w)) st cpu mem
      /\ mem_ext w w'
      /\ batch = (if ready then pending else [])
      /\ self w' = (if ready then set_lastWrite t (set_series [] (self w))
                    else set_series pending (self w))
      /\ clock w' = clock w
      /\ ticks w' = (ticks w + policy_reads w + (if ready then 1 else 0))%nat
      /\ trace w' = trace w
           ++ [EvLock; EvSetSeries (series (self w) ++ [core]);
               EvSetSeries pending]
           ++ (if ready then [EvSetSeries []; EvSetLastWrite t] else [])
           ++ [EvUnlock]
      /\ Forall (series_wf w') (core :: fsrows)).
Proof.
  intros Hcpu Hmem. unfold AddStats_func1.
  apply returns_bind, returns_emit. apply returns_defer_emit.
  apply returns_bind. eapply returns_conseq;
    [eapply containerStatsToValues_spec; eauto |].
  cbv beta. intros [c v] w1 Hb. cbn [fst snd] in *.
  apply returns_bind. eapply returns_conseq; [eapply newSeries_spec; exact Hb |].
  cbv beta. intros core wn [-> Hcore].
  destruct (building_frame _ _ _ _ _ _ Hb) as [(Hs1 & Hc1 & Hk1 & Ht1) Hext1].
  clear Hb. cbn [self clock ticks trace strings ifaces with_trace] in *.
  apply returns_bind, returns_get. apply returns_bind, returns_assign_series.
  apply returns_bind. eapply returns_conseq;
    [apply containerFilesystemStatsToSeries_spec |].
  cbv beta. intros fsrows w2 ((Hs2 & Hc2 & Hk2 & Ht2) & Hext2 & Hfs).
  cbn [self clock ticks trace strings ifaces with_trace with_self
       tableName set_series] in *.
  assert (Hext : mem_ext w w2).
  { destruct Hext1 as [? ?], Hext2 as [? ?]. cbn in *. split; etrans; eauto. }
  assert (Hdata : map (series_data w2) (core :: fsrows)
                  = sampleRows (tableName (self w)) st cpu mem).
  { unfold sampleRows. cbn [map]. f_equal.
    - apply row_data. eapply row_ext; [exact Hcore |].
      destruct Hext2 as [? ?]. split; assumption.
    - rewrite Hs1 in Hfs. clear -Hfs. induction Hfs; cbn [map]; [reflexivity |].
      f_equal; [| assumption]. now apply row_data. }
  assert (Hwf : Forall (series_wf w2) (core :: fsrows)).
  { constructor.
    - assert (Hcore2 : row w2 core (tableName (self w)) (coreColumns st)
                         (coreValues cpu mem (Network st))).
      { eapply row_ext; [exact Hcore |].
        destruct Hext2 as [? ?]. split; assumption. }
      destruct Hcore2 as (_ & Hwc & _ & p & Hp & Hwp & _).
      split; [exact Hwc |]. rewrite Hp. constructor; [exact Hwp | constructor].
    - clear -Hfs. induction Hfs as [| s f l k Hrow _ IH]; constructor; [| exact IH].
      destruct Hrow as (_ & Hwc & _ & p & Hp & Hwp & _).
      split; [exact Hwc |]. rewrite Hp. constructor; [exact Hwp | constructor]. }
  apply returns_bind, returns_get. apply returns_bind, returns_assign_series.
  rewrite Hs2. cbn [series set_series]. rewrite Hs1 in *.
  rewrite <- (assoc_L (++)). cbn [app].
  set (pending := series (self w) ++ core :: fsrows).
  unfold call_readyToFlush.
  apply returns_bind. apply returns_bind, returns_get.
  cbn [self with_trace with_self readyToFlush set_series series].
  unfold policy_ready, policy_reads. fold pending.
  destruct (readyToFlush (self w)) as [| f].
  - unfold defaultReadyToFlush.
    apply returns_bind, returns_time_Now. apply returns_bind, returns_get.
    apply returns_ret.
    cbn [self clock ticks trace strings ifaces with_trace with_self with_ticks
         bufferDuration lastWrite set_series].
    rewrite Hc2, Hc1, Hk2, Hk1.
    destruct (bufferDuration (self w)
              <=? Time_Sub (clock w (ticks w)) (lastWrite (self w))).
    + apply returns_bind, returns_get.
      apply returns_bind, returns_assign_series.
      apply returns_bind, returns_time_Now.
      apply returns_bind, returns_assign_lastWrite. apply returns_ret.
      exists core, fsrows. fold pending.
      unfold series_data, mem_ext, series_wf in *.
      cbn [self clock ticks trace strings ifaces with_trace with_self
           with_ticks series set_series set_lastWrite].
      rewrite ?Hc2, ?Hc1, ?Hk2, ?Hk1, ?Ht2, ?Ht1.
      rewrite ?Nat.add_0_r, ?Nat.add_1_r.
      split_and!; auto; try apply Hext.
      rewrite <- !(assoc_L (++)). reflexivity.
    + apply returns_ret.
      exists core, fsrows. fold pending.
      unfold series_data, mem_ext, series_wf in *.
      cbn [self clock ticks trace strings ifaces with_trace with_self
           with_ticks series set_series set_lastWrite].
      rewrite ?Hc2, ?Hc1, ?Hk2, ?Hk1, ?Ht2, ?Ht1.
      rewrite ?Nat.add_0_r, ?Nat.add_1_r.
      split_and!; auto; try apply Hext.
      rewrite <- !(assoc_L (++)). reflexivity.
  - apply returns_ret.
    destruct (f pending) eqn:Hf.
    + apply returns_bind, returns_get.
      apply returns_bind, returns_assign_series.
      apply returns_bind, returns_time_Now.
      apply returns_bind, returns_assign_lastWrite. apply returns_ret.
      exists core, fsrows. fold pending.
      unfold series_data, mem_ext, series_wf in *.
      cbn [self clock ticks trace strings ifaces with_trace with_self
           with_ticks series set_series set_lastWrite].
      rewrite ?Hc2, ?Hc1, ?Hk2, ?Hk1, ?Ht2, ?Ht1, ?Hf.
      rewrite ?Nat.add_0_r, ?Nat.add_1_r.
      split_and!; auto; try apply Hext.
      rewrite <- !(assoc_L (++)). reflexivity.
    + apply returns_ret.
      exists core, fsrows. fold pending.
      unfold series_data, mem_ext, series_wf in *.
      cbn [self clock ticks trace strings ifaces with_trace with_self
           with_ticks series set_series set_lastWrite].
      rewrite ?Hc2, ?Hc1, ?Hk2, ?Hk1, ?Ht2, ?Ht1, ?Hf.
      rewrite ?Nat.add_0_r, ?Nat.add_1_r.
      split_and!; auto; try apply Hext.
      rewrite <- !(assoc_L (++)). reflexivity.
Qed.

(** The same without the last clause. *)
Lemma AddStats_func1_spec ref st cpu mem w :
  Cpu st = Some cpu -> Memory st = Some mem ->
  returns (AddStats_func1 impl ref (Some st)) w (fun batch w' =>
    exists core fsrows,
      let pending := series (self w) ++ core :: fsrows in
      let ready := policy_ready w pending in
      let t := clock w (ticks w + policy_reads w)%nat in
      map (series_data w') (core :: fsrows)
        = sampleRows (tableName (self w)) st cpu mem
      /\ mem_ext w w'
      /\ batch = (if ready then pending else [])
      /\ self w' = (if ready then set_lastWrite t (set_series [] (self w))
                    else set_series pending (self w))
      /\ clock w' = clock w
      /\ ticks w' = (ticks w + policy_reads w + (if ready then 1 else 0))%nat
      /\ trace w' = trace w
           ++ [EvLock; EvSetSeries (series (self w) ++ [core]);
               EvSetSeries pending]
           ++ (if ready then [EvSetSeries []; EvSetLastWrite t] else [])
           ++ [EvUnlock]).
Proof.
  intros Hcpu Hmem.
  eapply returns_conseq; [eapply AddStats_func1_rows; eauto |].
  cbv beta zeta. intros batch w' (core & fsrows & H1 & H2 & H3 & H4 & H5 & H6 & H7 & _).
  exists core, fsrows. split_and!; assumption.
Qed.

End WritePath.

(** ** The write path: the rows of a sample *)

(** The sample input, run: the three default columns and values end up in
    arrays of their own (the first three of each memory), and the rows the
    locked section of AddStats hands over hold the metric columns only. *)
Example sample_memory_after_core_row :
  strings (snd (containerStatsToValues sampleImpl sampleRef (Some sampleStats)
                  sampleWorld))
  = [ ["time"]; ["time"; "machine"];
      ["time"; "machine"; "container_name"; ""];
      ["cpu_cumulative_usage"];
      ["cpu_cumulative_usage"; "memory_usage"];
      ["cpu_cumulative_usage"; "memory_usage"; "memory_working_set";
       "rx_bytes"];
      ["cpu_cumulative_usage"; "memory_usage"; "memory_working_set";
       "rx_bytes"; "rx_errors"; "tx_bytes"; "tx_errors"; ""] ].
Proof. vm_compute. reflexivity. Qed.

Example sample_rows_of_AddStats :
  match AddStats_func1 sampleImpl sampleRef (Some sampleStats) sampleWorld with
  | (Ok batch, w') => map (series_data w') batch
  | _ => []
  end
  = [ mkSeries "stats"
        ["cpu_cumulative_usage"; "memory_usage"; "memory_working_set";
         "rx_bytes"; "rx_errors"; "tx_bytes"; "tx_errors"]
        [[VUint64 7000; VUint64 4096; VUint64 1024;
          VUint64 10; VUint64 1; VUint64 20; VUint64 2]];
      mkSeries "stats" ["fs_device"; "fs_limit"; "fs_usage"]
        [[VString "/dev/sda1"; VUint64 100; VUint64 40]];
      mkSeries "stats" ["fs_device"; "fs_limit"; "fs_usage"]
        [[VString "/dev/sdb1"; VUint64 200; VUint64 50]] ].
Proof. vm_compute. reflexivity. Qed.

Lemma coreColumns_no_default st d :
  In d defaultColumns -> ~ In d (coreColumns st).
Proof.
  unfold defaultColumns, coreColumns.
  destruct (Network st); cbn; intros Hd Hc;
    repeat (destruct Hd as [<- | Hd]; [| try contradiction]);
    repeat (destruct Hc as [Hc | Hc]; try discriminate Hc; try contradiction).
Qed.

Lemma fsColumns_no_default d : In d defaultColumns -> ~ In d fsColumns.
Proof.
  unfold defaultColumns, fsColumns. cbn. intros Hd Hc.
  repeat (destruct Hd as [<- | Hd]; [| try contradiction]);
    repeat (destruct Hc as [Hc | Hc]; try discriminate Hc; try contradiction).
Qed.

Lemma coreColumns_length st cpu mem :
  length (coreColumns st) = length (coreValues cpu mem (Network st))
  /\ (0 < length (coreColumns st))%nat.
Proof.
  unfold coreColumns, coreValues. destruct (Network st); cbn; split; lia.
Qed.

(** C1 (evaluation of the code).  Every row of the write path has columns
    and values of equal, non-zero length, but none of them contains any of
    the three default columns: getSeriesDefaultValues appends timestamp,
    host and container to its own copies of the slice headers, and both
    callers go on with their unchanged, empty slices.  This holds for the
    core row of containerStatsToValues and for every filesystem row of
    containerFilesystemStatsToSeries, for every sample with CPU and memory
    data. *)
Theorem write_rows_lack_default_columns impl ref st cpu mem w :
  Cpu st = Some cpu -> Memory st = Some mem ->
  returns (containerStatsToValues impl ref (Some st)) w (fun cv w' =>
    let cols := view (strings w') (fst cv) in
    let vals := view (ifaces w') (snd cv) in
    length cols = length vals /\ (0 < length cols)%nat
    /\ forall d, In d defaultColumns -> ~ In d cols)
  /\ returns (containerFilesystemStatsToSeries impl ref (Some st)) w
       (fun rows w' =>
          length rows = length (Filesystem st)
          /\ Forall (fun s =>
               exists vals, Points (series_data w' s) = [vals]
                 /\ length (Columns (series_data w' s)) = length vals
                 /\ (0 < length vals)%nat
                 /\ forall d, In d defaultColumns
                      -> ~ In d (Columns (series_data w' s))) rows).
Proof.
  intros Hcpu Hmem. split.
  - eapply returns_conseq; [eapply containerStatsToValues_spec; eauto |].
    cbv beta. intros [c v] w' (_ & _ & _ & _ & Hc & _ & _ & Hv).
    cbn [fst snd] in *. rewrite Hc, Hv.
    destruct (coreColumns_length st cpu mem) as [Hl Hp].
    split; [exact Hl |]. split; [exact Hp |]. apply coreColumns_no_default.
  - eapply returns_conseq; [apply containerFilesystemStatsToSeries_spec |].
    cbv beta. intros rows w' (_ & _ & Hall).
    split; [eapply Forall2_length; eauto |].
    induction Hall as [| s f rows fs Hrow _ IH]; constructor; [| exact IH].
    rewrite (row_data _ _ _ _ _ Hrow). cbn [Points Columns].
    exists (fsValues f). split; [reflexivity |].
    split; [reflexivity |]. split; [cbn; lia |]. apply fsColumns_no_default.
Qed.

Lemma write_rows_lack_default_columns_witness :
  returns (containerStatsToValues sampleImpl sampleRef (Some sampleStats))
    sampleWorld (fun cv w' =>
      let cols := view (strings w') (fst cv) in
      let vals := view (ifaces w') (snd cv) in
      length cols = length vals /\ (0 < length cols)%nat
      /\ forall d, In d defaultColumns -> ~ In d cols)
  /\ returns (containerFilesystemStatsToSeries sampleImpl sampleRef
               (Some sampleStats)) sampleWorld
       (fun rows w' =>
          length rows = length (Filesystem sampleStats)
          /\ Forall (fun s =>
               exists vals, Points (series_data w' s) = [vals]
                 /\ length (Columns (series_data w' s)) = length vals
                 /\ (0 < length vals)%nat
                 /\ forall d, In d defaultColumns
                      -> ~ In d (Columns (series_data w' s))) rows).
Proof.
  apply (write_rows_lack_default_columns sampleImpl sampleRef sampleStats
           sampleCpu sampleMemory sampleWorld); reflexivity.
Defined.

(** C3 (evaluation of the code).  For a sample with CPU and memory data and
    k filesystem entries, the locked section of AddStats appends exactly
    1 + k rows to the pending batch: the core row first, then one row per
    filesystem entry in the sample's order.  Each filesystem row holds the
    device, limit and usage of its entry under the columns fs_device,
    fs_limit and fs_usage, and nothing else: the default columns are
    missing from it. *)
Theorem AddStats_appends_rows impl ref st cpu mem w :
  Cpu st = Some cpu -> Memory st = Some mem ->
  returns (AddStats_func1 impl ref (Some st)) w (fun batch w' =>
    exists rows,
      (if policy_ready w (series (self w) ++ rows)
       then batch else series (self w')) = series (self w) ++ rows
      /\ length rows = (1 + length (Filesystem st))%nat
      /\ map (series_data w') rows
         = mkSeries (tableName (self w)) (coreColumns st)
             [coreValues cpu mem (Network st)]
           :: map (fun f => mkSeries (tableName (self w))
                              [colFsDevice; colFsLimit; colFsUsage]
                              [[VString (Device f); VUint64 (Limit f);
                                VUint64 (fs_Usage f)]])
                (Filesystem st)).
Proof.
  intros Hcpu Hmem.
  eapply returns_conseq; [eapply AddStats_func1_spec; eauto |].
  cbv beta. intros batch w' (core & fsrows & Hdata & _ & Hb & Hs & _).
  exists (core :: fsrows). split; [| split].
  - destruct (policy_ready w (series (self w) ++ core :: fsrows));
      [exact Hb | rewrite Hs; reflexivity].
  - apply (f_equal (@length _)) in Hdata. unfold sampleRows in Hdata.
    rewrite length_map in Hdata. cbn [length] in Hdata.
    rewrite length_map in Hdata. exact Hdata.
  - exact Hdata.
Qed.

Lemma AddStats_appends_rows_witness :
  returns (AddStats_func1 sampleImpl sampleRef (Some sampleStats)) sampleWorld
    (fun batch w' => map (Columns ∘ series_data w') batch
       = [ coreColumns sampleStats; fsColumns; fsColumns ]).
Proof.
  eapply returns_conseq.
  - apply (AddStats_appends_rows sampleImpl sampleRef sampleStats
             sampleCpu sampleMemory sampleWorld); reflexivity.
  - cbv beta. intros batch w' (rows & Hb & _ & Hdata).
    cbn in Hb. subst batch.
    rewrite <- (map_map (series_data w') Columns), Hdata. reflexivity.
Defined.

(** ** The write path: buffering and flushing *)



(** C8.  AddStats called with a nil sample, or with a sample whose CPU or
    memory sub-record is nil, returns no error and leaves the whole state
    as it was: the pending batch, the last-flush time, and also memory,
    clock and trace (no lock is taken, nothing is sent). *)
Theorem AddStats_invalid_sample impl ref stats w :
  (stats = None
   \/ exists st, stats = Some st /\ (Cpu st = None \/ Memory st = None)) ->
  AddStats impl ref stats w = (Ok tt, w).
Proof.
  intros [-> | (st & -> & [H | H])]; unfold AddStats.
  - reflexivity.
  - rewrite H. reflexivity.
  - rewrite H. destruct (Cpu st); reflexivity.
Qed.

Lemma AddStats_invalid_sample_witness :
  AddStats sampleImpl sampleRef (Some (set_Cpu None sampleStats)) sampleWorld
  = (Ok tt, sampleWorld).
Proof.
  apply (AddStats_invalid_sample sampleImpl sampleRef
           (Some (set_Cpu None sampleStats)) sampleWorld).
  right. exists (set_Cpu None sampleStats). split; [reflexivity |].
  left. reflexivity.
Defined.

(** C9.  RecentStats called with a count of zero returns the empty result
    and no error, whatever the container name, and leaves the world as it
    was: in particular the trace gains no query event, so the store is not
    called. *)
Theorem RecentStats_zero impl containerName w :
  RecentStats impl containerName 0 w = (Ok [], w).
Proof. reflexivity. Qed.

(** ** The read path: reconstruction of one row *)

Section ReadPath.
Variable impl : GoImpl.
Variable self : influxdbStorage.

Ltac split_col col :=
  unfold valuesToContainerStats_case;
  repeat match goal with
         | |- context [String.eqb col ?c] =>
             let E := fresh "E" in destruct (String.eqb col c) eqn:E
         end.

Lemma emptyStats_allocated : allocated emptyStats.
Proof. unfold allocated, emptyStats; cbn. split_and!; try discriminate; lia. Qed.

(** One iteration on allocated sub-records never panics, and keeps them
    allocated. *)
Lemma valuesToContainerStats_case_allocated col v stats :
  allocated stats ->
  (exists e, valuesToContainerStats_case impl self col v stats None = Err e)
  \/ (exists stats' err,
        valuesToContainerStats_case impl self col v stats None = Ok (stats', err)
        /\ allocated stats'
        /\ (~ In col networkColumns -> Network stats' = Network stats)).
Proof.
  intros (Hc & Hm & Hn & Hf).
  destruct (Cpu stats) as [cpu |] eqn:Ecpu; [| congruence].
  destruct (Memory stats) as [mem |] eqn:Emem; [| congruence].
  destruct (Network stats) as [net |] eqn:Enet; [| congruence].
  assert (Hnet : forall c, String.eqb col c = true -> In c networkColumns ->
                 In col networkColumns).
  { intros c Hc' Hin. apply String.eqb_eq in Hc'. now subst. }
  split_col col.
  - destruct v; try (right; do 2 eexists; split; [reflexivity |];
      unfold allocated; rewrite ?Ecpu, ?Emem, ?Enet; split_and!; auto; fail).
    destruct (Time_IsZero (Timestamp stats));
      right; do 2 eexists; (split; [reflexivity |]);
      unfold allocated; cbn; rewrite ?Ecpu, ?Emem, ?Enet; split_and!; auto.
  - destruct v; try (left; eexists; reflexivity).
    destruct (negb (String.eqb s (machineName self)));
      [left; eexists; reflexivity |].
    right; do 2 eexists; split; [reflexivity |].
    unfold allocated; rewrite ?Ecpu, ?Emem, ?Enet; split_and!; auto.
  - rewrite Ecpu; cbn. destruct (convertToUint64 impl v) as [x e].
    right; do 2 eexists; split; [reflexivity |].
    unfold allocated; cbn; rewrite ?Ecpu, ?Emem, ?Enet; split_and!; auto.
  - rewrite Emem; cbn. destruct (convertToUint64 impl v) as [x e].
    right; do 2 eexists; split; [reflexivity |].
    unfold allocated; cbn; rewrite ?Ecpu, ?Emem, ?Enet; split_and!; auto.
  - rewrite Emem; cbn. destruct (convertToUint64 impl v) as [x e].
    right; do 2 eexists; split; [reflexivity |].
    unfold allocated; cbn; rewrite ?Ecpu, ?Emem, ?Enet; split_and!; auto.
  - rewrite Enet; cbn. destruct (convertToUint64 impl v) as [x e].
    right; do 2 eexists; split; [reflexivity |].
    unfold allocated; cbn; rewrite ?Ecpu, ?Emem, ?Enet; split_and!; auto.
    intros Hno. exfalso. apply Hno. eapply Hnet; [eassumption | cbn; auto].
  - rewrite Enet; cbn. destruct (convertToUint64 impl v) as [x e].
    right; do 2 eexists; split; [reflexivity |].
    unfold allocated; cbn; rewrite ?Ecpu, ?Emem, ?Enet; split_and!; auto.
    intros Hno. exfalso. apply Hno. eapply Hnet; [eassumption | cbn; auto].
  - rewrite Enet; cbn. destruct (convertToUint64 impl v) as [x e].
    right; do 2 eexists; split; [reflexivity |].
    unfold allocated; cbn; rewrite ?Ecpu, ?Emem, ?Enet; split_and!; auto.
    intros Hno. exfalso. apply Hno. eapply Hnet; [eassumption | cbn; auto].
  - rewrite Enet; cbn. destruct (convertToUint64 impl v) as [x e].
    right; do 2 eexists; split; [reflexivity |].
    unfold allocated; cbn; rewrite ?Ecpu, ?Emem, ?Enet; split_and!; auto.
    intros Hno. exfalso. apply Hno. eapply Hnet; [eassumption | cbn; auto].
  - destruct v; try (left; eexists; reflexivity).
    destruct (Filesystem stats) as [| f0 rest] eqn:Efs;
      right; do 2 eexists; (split; [reflexivity |]);
      unfold allocated; cbn; rewrite ?Ecpu, ?Emem, ?Enet; split_and!; auto.
  - destruct (convertToUint64 impl v) as [x [e |]];
      [left; eexists; reflexivity |].
    destruct (Filesystem stats) as [| f0 rest] eqn:Efs;
      right; do 2 eexists; (split; [reflexivity |]);
      unfold allocated; cbn; rewrite ?Ecpu, ?Emem, ?Enet; split_and!; auto.
  - destruct (convertToUint64 impl v) as [x [e |]];
      [left; eexists; reflexivity |].
    destruct (Filesystem stats) as [| f0 rest] eqn:Efs;
      right; do 2 eexists; (split; [reflexivity |]);
      unfold allocated; cbn; rewrite ?Ecpu, ?Emem, ?Enet; split_and!; auto.
  - right; do 2 eexists; split; [reflexivity |].
    unfold allocated; rewrite ?Ecpu, ?Emem, ?Enet; split_and!; auto.
Qed.

(** The loop, started on allocated sub-records, returns a record with
    allocated sub-records whenever it returns one. *)
Lemma valuesToContainerStats_loop_allocated values columns :
  forall i stats r,
  allocated stats ->
  valuesToContainerStats_loop impl self values i columns stats None = Ok r ->
  exists st, r = Some st /\ allocated st
    /\ ((forall col, In col columns -> ~ In col networkColumns)
        -> Network st = Network stats).
Proof.
  induction columns as [| col columns' IH]; intros i stats r Halloc Hrun.
  - cbn in Hrun. inversion Hrun; subst. eauto.
  - cbn [valuesToContainerStats_loop] in Hrun.
    destruct (values !! i) as [v |]; [| discriminate].
    destruct (valuesToContainerStats_case_allocated col v stats Halloc)
      as [[e He] | (stats' & err & He & Halloc' & Hnet)];
      rewrite He in Hrun; cbn in Hrun; [discriminate |].
    destruct err as [e |]; [discriminate |].
    destruct (IH _ _ _ Halloc' Hrun) as (st & -> & Hst & Hnet').
    exists st. split_and!; auto.
    intros Hno. rewrite Hnet', Hnet; auto.
    + apply Hno. now left.
    + intros c Hc. apply Hno. now right.
Qed.

(** It panics only by running out of values. *)
Lemma valuesToContainerStats_loop_no_panic values columns :
  forall i stats p,
  allocated stats -> (i + length columns <= length values)%nat ->
  valuesToContainerStats_loop impl self values i columns stats None <> Panic p.
Proof.
  induction columns as [| col columns' IH]; intros i stats p Halloc Hlen Hrun.
  - discriminate.
  - cbn [valuesToContainerStats_loop length] in *.
    destruct (values !! i) as [v |] eqn:Ev.
    + destruct (valuesToContainerStats_case_allocated col v stats Halloc)
        as [[e He] | (stats' & err & He & Halloc' & _)];
        rewrite He in Hrun; cbn in Hrun; [discriminate |].
      destruct err as [e |]; [discriminate |].
      eapply (IH (S i)); [exact Halloc' | lia | exact Hrun].
    + apply lookup_ge_None in Ev. lia.
Qed.

(** Running the loop over [pre ++ post] is running it over [pre] and, if
    that returns a record, going on with [post]. *)
Lemma valuesToContainerStats_loop_app values pre post :
  forall i stats,
  valuesToContainerStats_loop impl self values i (pre ++ post) stats None
  = match valuesToContainerStats_loop impl self values i pre stats None with
    | Ok (Some stats') =>
        valuesToContainerStats_loop impl self values (i + length pre) post
          stats' None
    | Ok None => Ok None
    | Err e => Err e
    | Panic p => Panic p
    end.
Proof.
  induction pre as [| col pre' IH]; intros i stats.
  - cbn. rewrite Nat.add_0_r. reflexivity.
  - cbn [app valuesToContainerStats_loop length].
    destruct (values !! i) as [v |]; [| reflexivity].
    destruct (valuesToContainerStats_case impl self col v stats None)
      as [[stats' err] | e | p]; cbn [rbind]; try reflexivity.
    destruct err as [e |]; [reflexivity |].
    rewrite IH. replace (S i + length pre')%nat with (i + S (length pre'))%nat
      by lia. reflexivity.
Qed.

(** The outcome at a column whose value sits at index [i], after a prefix
    of [i] columns that went through. *)
Lemma valuesToContainerStats_at columns values i col v :
  columns !! i = Some col -> values !! i = Some v ->
  (exists e, valuesToContainerStats impl self (take i columns) values = Err e
             /\ valuesToContainerStats impl self columns values = Err e)
  \/ (exists stats, allocated stats
        /\ valuesToContainerStats impl self (take i columns) values
           = Ok (Some stats)
        /\ valuesToContainerStats impl self columns values
           = rbind (valuesToContainerStats_case impl self col v stats None)
               (fun '(stats', err) =>
                  match err with
                  | Some e => Err (errColumnInvalid col v e)
                  | None =>
                      valuesToContainerStats_loop impl self values (S i)
                        (drop (S i) columns) stats' err
                  end)).
Proof.
  intros Hcol Hval.
  assert (Hi : (i < length columns)%nat) by (eapply lookup_lt_Some; eauto).
  assert (Hv : (i < length values)%nat) by (eapply lookup_lt_Some; eauto).
  unfold valuesToContainerStats.
  assert (Hlen : length (take i columns) = i) by (rewrite length_take; lia).
  pose proof (take_drop_middle columns i col Hcol) as Hsplit.
  set (pre := take i columns) in *. set (post := drop (S i) columns) in *.
  clearbody pre post. subst columns.
  rewrite !valuesToContainerStats_loop_app.
  destruct (valuesToContainerStats_loop impl self values 0 pre
              emptyStats None) as [r | e | p] eqn:Hpre.
  - destruct (valuesToContainerStats_loop_allocated _ _ _ _ _
                emptyStats_allocated Hpre) as (st & -> & Hst & _).
    right. exists st. split; [exact Hst |]. split; [reflexivity |].
    rewrite Hlen. cbn [valuesToContainerStats_loop Nat.add]. rewrite Hval.
    reflexivity.
  - left. eauto.
  - exfalso. eapply valuesToContainerStats_loop_no_panic; [| | exact Hpre].
    + apply emptyStats_allocated.
    + rewrite Hlen. cbn. lia.
Qed.

End ReadPath.

(** ** The read path: identity check, coercion, shape of the result *)

(** C5 (as stated) fails: a row whose CPU column, placed before the host
    column, holds a negative integer is rejected for that column, although
    its host column names another machine. *)
Lemma host_mismatch_law_counterexample :
  ~ host_mismatch_law sampleImpl sampleStorage
      [colCpuCumulativeUsage; colMachineName]
      [VInt64 (-1); VString "machine-B"].
Proof.
  intros H. specialize (H 1%nat "machine-B" eq_refl eq_refl).
  assert (Hne : "machine-B" <> machineName sampleStorage) by discriminate.
  specialize (H Hne).
  assert (Hrun : valuesToContainerStats sampleImpl sampleStorage
                   [colCpuCumulativeUsage; colMachineName]
                   [VInt64 (-1); VString "machine-B"]
                 = Err (errColumnInvalid colCpuCumulativeUsage (VInt64 (-1))
                          (errNegativeValue (VInt64 (-1)))))
    by (vm_compute; reflexivity).
  rewrite Hrun in H. discriminate H.
Qed.

(** C5 (amended).  A row with a host column whose string differs from the
    expected host is never reconstructed: valuesToContainerStats returns an
    error, and that error is "different machine" whenever the columns
    before the host column go through (an earlier column that fails is
    reported instead). *)
Theorem valuesToContainerStats_host_mismatch impl self columns values i m :
  columns !! i = Some colMachineName -> values !! i = Some (VString m) ->
  m <> machineName self ->
  (exists e, valuesToContainerStats impl self columns values = Err e)
  /\ (is_Ok (valuesToContainerStats impl self (take i columns) values) = true
      -> valuesToContainerStats impl self columns values
         = Err errDifferentMachine).
Proof.
  intros Hcol Hval Hne.
  assert (Hcase : forall stats,
            valuesToContainerStats_case impl self colMachineName (VString m)
              stats None = Err errDifferentMachine).
  { intros stats. unfold valuesToContainerStats_case. cbn.
    destruct (String.eqb m (machineName self)) eqn:E; [| reflexivity].
    apply String.eqb_eq in E. contradiction. }
  destruct (valuesToContainerStats_at impl self columns values i _ _ Hcol Hval)
    as [(e & Hpre & Hall) | (stats & _ & Hpre & Hall)].
  - split; [eauto |]. rewrite Hpre. discriminate.
  - rewrite Hcase in Hall. cbn in Hall. split; [eauto |]. intros _. exact Hall.
Qed.

Lemma valuesToContainerStats_host_mismatch_witness :
  valuesToContainerStats sampleImpl sampleStorage
    [colTimestamp; colMachineName; colCpuCumulativeUsage]
    [VFloat64 (S754_finite false 1 20); VString "machine-B"; VUint64 5]
  = Err errDifferentMachine.
Proof.
  apply (valuesToContainerStats_host_mismatch sampleImpl sampleStorage
           [colTimestamp; colMachineName; colCpuCumulativeUsage]
           [VFloat64 (S754_finite false 1 20); VString "machine-B"; VUint64 5]
           1%nat "machine-B"); try reflexivity; discriminate.
Defined.

Lemma f64_ltz_negative (x : float64) :
  f64_ltz x = true
  <-> x = S754_infinity true \/ exists m e, x = S754_finite true m e.
Proof.
  unfold f64_ltz, SFltb, SFcompare, f64_zero.
  destruct x as [s | s | | s m e]; try destruct s; cbn; split;
    try discriminate; try tauto; eauto;
    intros [H | (? & ? & H)]; discriminate H.
Qed.

Lemma uint64_id z : is_uint64 z -> uint64 z = z.
Proof. unfold is_uint64, uint64. intros H. apply Z.mod_small. exact H. Qed.

(** C6.  convertToUint64 takes a uint64 as it is and a uint32 at its value;
    takes an int, int32 or int64, and a float64, exactly when it is not
    below zero, at its value (for a float, its integer part), and fails
    with "negative value" when it is; turns nil into 0; and fails with
    "Unknown type" for anything else.  In valuesToContainerStats a failing
    coercion in any numeric column ends the call with an error, and when
    the columns before it go through, that error names the column and
    carries the raw value. *)
Theorem convertToUint64_coercion impl self :
  convertToUint64 impl VNil = (0, None)
  /\ (forall x, convertToUint64 impl (VUint64 x) = (x, None))
  /\ (forall x, is_uint32 x -> convertToUint64 impl (VUint32 x) = (x, None))
  /\ (forall v x, v = VInt x \/ v = VInt32 x \/ v = VInt64 x -> is_int64 x ->
        (0 <= x -> convertToUint64 impl v = (x, None))
        /\ (x < 0 -> convertToUint64 impl v = (0, Some (errNegativeValue v))))
  /\ (forall x,
        (f64_ltz x = false ->
           convertToUint64 impl (VFloat64 x) = (f64_to_uint64 impl x, None)
           /\ (forall z, f64_trunc x = Some z -> z < two64 ->
                 f64_to_uint64 impl x = z))
        /\ (f64_ltz x = true ->
              convertToUint64 impl (VFloat64 x)
              = (0, Some (errNegativeValue (VFloat64 x)))))
  /\ (forall s, convertToUint64 impl (VString s) = (0, Some errUnknownType))
  /\ (forall ty, convertToUint64 impl (VOther ty) = (0, Some errUnknownType))
  /\ (forall columns values i col v e,
        columns !! i = Some col -> In col numericColumns ->
        values !! i = Some v -> snd (convertToUint64 impl v) = Some e ->
        (exists err, valuesToContainerStats impl self columns values = Err err)
        /\ (is_Ok (valuesToContainerStats impl self (take i columns) values)
            = true ->
            exists err,
              valuesToContainerStats impl self columns values = Err err
              /\ identifies col v err)).
Proof.
  split_and!; try reflexivity.
  - intros x Hx. cbn. rewrite uint64_id; [reflexivity |].
    unfold is_uint32, is_uint64, two64 in *. lia.
  - intros v x Hv Hx. unfold is_int64, two63 in Hx. split; intros Hsign.
    + assert (Hlt : (x <? 0) = false) by (apply Z.ltb_ge; lia).
      assert (Hu : uint64 x = x)
        by (apply uint64_id; unfold is_uint64, two64; lia).
      destruct Hv as [-> | [-> | ->]]; cbn; rewrite Hlt, Hu; reflexivity.
    + assert (Hlt : (x <? 0) = true) by (apply Z.ltb_lt; lia).
      destruct Hv as [-> | [-> | ->]]; cbn; rewrite Hlt; reflexivity.
  - intros x. split; intros Hneg; cbn; rewrite Hneg; [| reflexivity].
    split; [reflexivity |]. intros z Hz Hlt. unfold f64_to_uint64. rewrite Hz.
    assert (H0 : 0 <= z).
    { destruct x as [s | s | | s m e]; cbn in Hz; try discriminate.
      - inversion Hz. lia.
      - destruct s.
        + exfalso. assert (f64_ltz (S754_finite true m e) = true)
            by (apply f64_ltz_negative; eauto). congruence.
        + inversion Hz. destruct e; try apply Z.shiftl_nonneg;
            try apply Z.shiftr_nonneg; lia. }
    replace (0 <=? z) with true by (symmetry; apply Z.leb_le; lia).
    replace (z <? two64) with true by (symmetry; apply Z.ltb_lt; lia).
    reflexivity.
  - intros columns values i col v e Hcol Hnum Hval Hconv.
    assert (Hcase : forall stats, allocated stats ->
              exists err,
                rbind (valuesToContainerStats_case impl self col v stats None)
                  (fun '(stats', err) =>
                     match err with
                     | Some e => Err (errColumnInvalid col v e)
                     | None =>
                         valuesToContainerStats_loop impl self values (S i)
                           (drop (S i) columns) stats' err
                     end) = Err err
                /\ identifies col v err).
    { intros stats (Hc & Hm & Hn & _).
      destruct (Cpu stats) as [cpu |] eqn:Ecpu; [| congruence].
      destruct (Memory stats) as [mem |] eqn:Emem; [| congruence].
      destruct (Network stats) as [net |] eqn:Enet; [| congruence].
      destruct (convertToUint64 impl v) as [x oe] eqn:Ec. cbn in Hconv. subst oe.
      unfold numericColumns, networkColumns in Hnum. cbn in Hnum.
      repeat (destruct Hnum as [<- | Hnum]);
        try contradiction;
        unfold valuesToContainerStats_case; cbn;
        rewrite ?Ecpu, ?Emem, ?Enet, ?Ec; cbn;
        eexists; (split; [reflexivity |]); cbn; auto. }
    destruct (valuesToContainerStats_at impl self columns values i _ _ Hcol Hval)
      as [(e' & Hpre & Hall) | (stats & Hst & Hpre & Hall)].
    + split; [eauto |]. rewrite Hpre. discriminate.
    + destruct (Hcase stats Hst) as (err & Herr & Hid).
      rewrite Herr in Hall. split; eauto.
Qed.

Lemma convertToUint64_coercion_witness :
  convertToUint64 sampleImpl (VInt64 (-3))
  = (0, Some (errNegativeValue (VInt64 (-3)))).
Proof.
  destruct (convertToUint64_coercion sampleImpl sampleStorage)
    as (_ & _ & _ & H & _).
  apply (H (VInt64 (-3)) (-3)).
  - right. right. reflexivity.
  - unfold is_int64, two63. lia.
  - lia.
Defined.

(** What the read path makes of the core row of a sample. *)
Lemma valuesToContainerStats_core impl self st cpu mem :
  valuesToContainerStats impl self (coreColumns st)
    (coreValues cpu mem (Network st))
  = Ok (Some {| Timestamp := Time_zero;
                Cpu := Some {| cpu_Usage := {| Total := Total (cpu_Usage cpu) |} |};
                Memory := Some {| mem_Usage := mem_Usage mem;
                                  WorkingSet := WorkingSet mem |};
                Network := Some match Network st with
                                | Some net =>
                                    {| RxBytes := RxBytes net;
                                       RxErrors := RxErrors net;
                                       TxBytes := TxBytes net;
                                       TxErrors := TxErrors net |}
                                | None => zeroNetwork
                                end;
                Filesystem := [] |}).
Proof.
  unfold coreColumns, coreValues. destruct (Network st); reflexivity.
Qed.

(** C10.  A record valuesToContainerStats returns has its CPU, memory and
    network sub-records allocated and at most one filesystem entry; when
    the input has no network column the network sub-record is the zero
    one.  This differs from the write path: the core row of a sample
    without network data has no network column, and reading that row back
    yields a zero network sub-record rather than none. *)
Theorem valuesToContainerStats_shape impl self columns values r :
  valuesToContainerStats impl self columns values = Ok r ->
  (exists st cpu mem net,
     r = Some st /\ Cpu st = Some cpu /\ Memory st = Some mem
     /\ Network st = Some net /\ (length (Filesystem st) <= 1)%nat
     /\ ((forall col, In col columns -> ~ In col networkColumns)
         -> net = zeroNetwork))
  /\ (forall ref st0 cpu0 mem0 w,
        Cpu st0 = Some cpu0 -> Memory st0 = Some mem0 -> Network st0 = None ->
        returns (containerStatsToValues impl ref (Some st0)) w (fun cv w' =>
          (forall col, In col (view (strings w') (fst cv))
             -> ~ In col networkColumns)
          /\ exists st',
               valuesToContainerStats impl self
                 (view (strings w') (fst cv)) (view (ifaces w') (snd cv))
               = Ok (Some st')
               /\ Network st' = Some zeroNetwork)).
Proof.
  intros Hrun. split.
  - destruct (valuesToContainerStats_loop_allocated impl self _ _ _ _ _
                emptyStats_allocated Hrun) as (st & -> & Hst & Hnet).
    destruct Hst as (Hc & Hm & Hn & Hf).
    destruct (Cpu st) as [cpu |] eqn:Ecpu; [| congruence].
    destruct (Memory st) as [mem |] eqn:Emem; [| congruence].
    destruct (Network st) as [net |] eqn:Enet; [| congruence].
    exists st, cpu, mem, net. split_and!; auto.
    intros Hno. specialize (Hnet Hno). cbn in Hnet.
    inversion Hnet. reflexivity.
  - intros ref st0 cpu0 mem0 w Hcpu Hmem Hnet.
    eapply returns_conseq; [eapply containerStatsToValues_spec; eauto |].
    cbv beta. intros [c v] w' (_ & _ & _ & _ & Hc & _ & _ & Hv).
    cbn [fst snd] in *. rewrite Hc, Hv, valuesToContainerStats_core.
    split.
    + unfold coreColumns, networkColumns. rewrite Hnet. cbn.
      intros col Hin Hn.
      repeat (destruct Hin as [<- | Hin]; [| try contradiction]);
        repeat (destruct Hn as [Hn | Hn]; try discriminate Hn;
                try contradiction).
    + eexists. split; [reflexivity |]. cbn. rewrite Hnet. reflexivity.
Qed.

Lemma valuesToContainerStats_shape_witness :
  exists st cpu mem net,
    Some {| Timestamp := Time_zero;
            Cpu := Some {| cpu_Usage := {| Total := 0 |} |};
            Memory := Some {| mem_Usage := 0; WorkingSet := 0 |};
            Network := Some zeroNetwork;
            Filesystem := [ {| Device := "/dev/sdb1"; Limit := 0;
                               fs_Usage := 12 |} ] |} = Some st
    /\ Cpu st = Some cpu /\ Memory st = Some mem
    /\ Network st = Some net /\ (length (Filesystem st) <= 1)%nat
    /\ ((forall col,
           In col [colFsDevice; colFsUsage; colFsDevice; colContainerName]
           -> ~ In col networkColumns)
        -> net = zeroNetwork).
Proof.
  apply (valuesToContainerStats_shape sampleImpl sampleStorage
           [colFsDevice; colFsUsage; colFsDevice; colContainerName]
           [VString "/dev/sda1"; VInt 12; VString "/dev/sdb1"; VString "web"]).
  reflexivity.
Defined.

(** Where the round-trip law holds, the sample was taken within the
    microsecond of the zero time: the core row has no timestamp column, so
    the record read back keeps the zero timestamp. *)
Lemma roundtrip_law_zero_time impl ref st cpu mem w :
  roundtrip_law impl ref st w ->
  Cpu st = Some cpu -> Memory st = Some mem ->
  Z.quot (Time_UnixNano Time_zero) 1000
  = Z.quot (Time_UnixNano (Timestamp st)) 1000.
Proof.
  intros H Hcpu Hmem. unfold roundtrip_law in H.
  destruct (returns_run _ _ _ H)
    as (cv & w' & Hrun & st' & Hrec & _ & _ & _ & Ht).
  destruct (returns_run _ _ _
              (containerStatsToValues_spec impl ref st cpu mem w Hcpu Hmem))
    as (cv2 & w2 & Hrun2 & _ & _ & _ & _ & Hc & _ & _ & Hv).
  rewrite Hrun in Hrun2. injection Hrun2 as <- <-.
  rewrite Hc, Hv, valuesToContainerStats_core in Hrec.
  injection Hrec as <-. exact Ht.
Qed.

(** C2 (as stated) fails: the core row of the sample taken at Unix time
    1400000030.000005 s reads back with the zero timestamp. *)
Lemma roundtrip_law_counterexample :
  ~ roundtrip_law sampleImpl sampleRef sampleStatsNoFs sampleWorld.
Proof.
  intros H.
  assert (Hne : Z.quot (Time_UnixNano Time_zero) 1000
                <> Z.quot (Time_UnixNano (Timestamp sampleStatsNoFs)) 1000)
    by (vm_compute; discriminate).
  exact (Hne (roundtrip_law_zero_time sampleImpl sampleRef sampleStatsNoFs
                sampleCpu sampleMemory sampleWorld H eq_refl eq_refl)).
Qed.

(** C2 (amended).  For every sample with CPU and memory data, whatever
    its filesystem entries, the columns and values of the core row, fed
    back to valuesToContainerStats under the same host identity (the
    storage that produced the row), give a record with the same CPU
    cumulative usage, memory usage and memory working set, and, when the
    sample has network data, the same four network values. *)
Theorem core_row_roundtrip impl ref st cpu mem w :
  Cpu st = Some cpu -> Memory st = Some mem ->
  returns (containerStatsToValues impl ref (Some st)) w (fun cv w' =>
    exists st' cpu' mem' net',
      valuesToContainerStats impl (self w)
        (view (strings w') (fst cv)) (view (ifaces w') (snd cv))
      = Ok (Some st')
      /\ Cpu st' = Some cpu'
      /\ Total (cpu_Usage cpu') = Total (cpu_Usage cpu)
      /\ Memory st' = Some mem'
      /\ mem_Usage mem' = mem_Usage mem /\ WorkingSet mem' = WorkingSet mem
      /\ Network st' = Some net'
      /\ (forall net, Network st = Some net ->
            RxBytes net' = RxBytes net /\ RxErrors net' = RxErrors net
            /\ TxBytes net' = TxBytes net /\ TxErrors net' = TxErrors net)).
Proof.
  intros Hcpu Hmem.
  eapply returns_conseq; [eapply containerStatsToValues_spec; eauto |].
  cbv beta. intros [c v] w' (_ & _ & _ & _ & Hc & _ & _ & Hv).
  cbn [fst snd] in *. rewrite Hc, Hv, valuesToContainerStats_core.
  do 4 eexists. split; [reflexivity |]. cbn.
  split_and!; try reflexivity.
  intros net Hnet. rewrite Hnet. cbn. auto.
Qed.

Lemma core_row_roundtrip_witness :
  returns (containerStatsToValues sampleImpl sampleRef (Some sampleStatsNoFs))
    sampleWorld (fun cv w' =>
    exists st' cpu' mem' net',
      valuesToContainerStats sampleImpl (self sampleWorld)
        (view (strings w') (fst cv)) (view (ifaces w') (snd cv))
      = Ok (Some st')
      /\ Cpu st' = Some cpu'
      /\ Total (cpu_Usage cpu') = Total (cpu_Usage sampleCpu)
      /\ Memory st' = Some mem'
      /\ mem_Usage mem' = mem_Usage sampleMemory
      /\ WorkingSet mem' = WorkingSet sampleMemory
      /\ Network st' = Some net'
      /\ (forall net, Network sampleStatsNoFs = Some net ->
            RxBytes net' = RxBytes net /\ RxErrors net' = RxErrors net
            /\ TxBytes net' = TxBytes net /\ TxErrors net' = TxErrors net)).
Proof.
  apply (core_row_roundtrip sampleImpl sampleRef sampleStatsNoFs sampleCpu
           sampleMemory sampleWorld); reflexivity.
Defined.

(** ** The read path: order of the result and failures *)

Lemma reconstructAll_app rec a b acc :
  reconstructAll rec (a ++ b) acc
  = rbind (reconstructAll rec a acc) (reconstructAll rec b).
Proof.
  revert acc. induction a as [| r a IH]; intros acc; cbn; [reflexivity |].
  destruct (rec r) as [[st |] | e | p]; auto.
Qed.

Lemma storeRows_app l1 l2 : storeRows (l1 ++ l2) = storeRows l1 ++ storeRows l2.
Proof. unfold storeRows. apply flat_map_app. Qed.

Lemma StronglySorted_snoc {A} (R : A -> A -> Prop) l x :
  StronglySorted R l -> Forall (fun y => R y x) l -> StronglySorted R (l ++ [x]).
Proof.
  induction 1 as [| a l Hl IH Ha]; intros Hx; cbn.
  - repeat constructor.
  - inversion Hx; subst. constructor; [auto |].
    apply Forall_app. split; [exact Ha | repeat constructor; assumption].
Qed.

Lemma StronglySorted_rev {A} (R : A -> A -> Prop) l :
  StronglySorted (fun a b => R b a) l -> StronglySorted R (rev l).
Proof.
  induction 1 as [| a l Hl IH Ha]; cbn; [constructor |].
  apply StronglySorted_snoc; [exact IH |].
  apply Forall_rev. exact Ha.
Qed.

Lemma Forall2_rev {A B} (R : A -> B -> Prop) l k :
  Forall2 R l k -> Forall2 R (rev l) (rev k).
Proof.
  induction 1 as [| a b l k Hab Hlk IH]; cbn; [constructor |].
  apply Forall2_app; [exact IH | repeat constructor; exact Hab].
Qed.

Section Retrieval.
Variable impl : GoImpl.
Variable self : influxdbStorage.

Let rec (row : list string * list value) : result (option ContainerStats) :=
  valuesToContainerStats impl self (fst row) (snd row).

(** The inner loop visits the points of a series from the last to the
    first. *)
Lemma RecentStats_points_rows s j acc :
  (j <= length (Points s))%nat ->
  RecentStats_points impl self s j acc
  = reconstructAll rec
      (rev (map (fun p => (Columns s, p)) (take j (Points s)))) acc.
Proof.
  revert acc. induction j as [| j' IH]; intros acc Hj; [reflexivity |].
  cbn [RecentStats_points].
  destruct (Points s !! j') as [values |] eqn:Ev.
  - rewrite (take_S_r _ _ _ Ev), map_app, rev_app_distr. cbn [map rev app].
    unfold rec at 1; cbn [fst snd reconstructAll].
    destruct (valuesToContainerStats impl self (Columns s) values)
      as [[st |] | e | p]; try reflexivity; apply IH; lia.
  - apply lookup_ge_None in Ev. lia.
Qed.

(** The outer loop visits the series from the last to the first: together
    the loops reconstruct the store's rows in reverse order. *)
Lemma RecentStats_series_rows series i acc :
  (i <= length series)%nat ->
  RecentStats_series impl self series i acc
  = reconstructAll rec (rev (storeRows (take i series))) acc.
Proof.
  revert acc. induction i as [| i' IH]; intros acc Hi; [reflexivity |].
  cbn [RecentStats_series].
  destruct (series !! i') as [s |] eqn:Es.
  - rewrite (take_S_r _ _ _ Es), storeRows_app, rev_app_distr,
      reconstructAll_app.
    unfold storeRows at 1. cbn [flat_map]. rewrite app_nil_r.
    rewrite RecentStats_points_rows by lia. rewrite firstn_all.
    destruct (reconstructAll rec
                (rev (map (fun p => (Columns s, p)) (Points s))) acc);
      cbn [rbind]; try reflexivity.
    apply IH. lia.
  - apply lookup_ge_None in Es. lia.
Qed.

Lemma reconstructAll_ok rows : forall l acc,
  Forall2 (fun row st => rec row = Ok (Some st)) rows l ->
  reconstructAll rec rows acc = Ok (acc ++ l).
Proof.
  induction rows as [| r rows IH]; intros l acc H; inversion H; subst; cbn.
  - now rewrite app_nil_r.
  - match goal with Hr : rec r = _ |- _ => rewrite Hr end.
    rewrite (IH _ _ ltac:(eassumption)), <- (assoc_L (++)). reflexivity.
Qed.

Lemma reconstructAll_err pre : forall row post e acc,
  Forall (fun r => is_Ok (rec r) = true) pre -> rec row = Err e ->
  reconstructAll rec (pre ++ row :: post) acc = Err e.
Proof.
  induction pre as [| r pre IH]; intros row post e acc Hpre Hrow; cbn.
  - rewrite Hrow. reflexivity.
  - inversion Hpre as [| ? ? Hr Hpre']; subst.
    destruct (rec r) as [[st |] | e' | p]; try discriminate Hr; eauto.
Qed.

Lemma reconstructAll_not_ok rows : forall row acc,
  In row rows -> is_Ok (rec row) = false ->
  is_Ok (reconstructAll rec rows acc) = false.
Proof.
  induction rows as [| r rows IH]; intros row acc Hin Hrow; [contradiction |].
  cbn. destruct Hin as [-> | Hin].
  - destruct (rec row) as [[st |] | e | p]; try discriminate Hrow; reflexivity.
  - destruct (rec r) as [[st |] | e | p]; try reflexivity; eauto.
Qed.

End Retrieval.

(** C4.  When the query succeeds, RecentStats reconstructs the rows of the
    answer in the reverse of the store's order (last series first, last
    point of each series first).  Hence, if every row reconstructs, the
    result is the list of the reconstructed samples reversed, and it is in
    strictly ascending time order whenever the store's order is strictly
    descending.  If a row fails to reconstruct, no sample is returned: the
    call returns the error of the first failing row it meets. *)
Theorem RecentStats_order_and_abort impl containerName numStats c series w :
  numStats <> 0 -> client (self w) = Some c ->
  Query c (RecentStats_query (self w) containerName numStats) = (series, None) ->
  let rec := fun row => valuesToContainerStats impl (self w) (fst row) (snd row) in
  let out := fst (RecentStats impl containerName numStats w) in
  out = reconstructAll rec (rev (storeRows series)) []
  /\ (forall l,
        Forall2 (fun row st => rec row = Ok (Some st)) (storeRows series) l ->
        out = Ok (rev l) /\ (time_descending l -> time_ascending (rev l)))
  /\ (forall pre row post e,
        storeRows series = pre ++ row :: post ->
        Forall (fun r => is_Ok (rec r) = true) post -> rec row = Err e ->
        out = Err e)
  /\ (forall row,
        In row (storeRows series) -> is_Ok (rec row) = false ->
        is_Ok out = false).
Proof.
  intros Hn Hcl Hq rec out.
  assert (Hout : out = reconstructAll rec (rev (storeRows series)) []).
  { subst out. unfold RecentStats.
    destruct (numStats =? 0) eqn:E; [apply Z.eqb_eq in E; contradiction |].
    unfold bind, get, lift, emit, modify, deref. rewrite Hcl.
    cbn [self with_trace]. rewrite Hq. cbn [fst].
    rewrite RecentStats_series_rows by lia. rewrite firstn_all. reflexivity. }
  split; [exact Hout |]. rewrite Hout. split_and!.
  - intros l Hl. split.
    + rewrite (reconstructAll_ok impl (self w) _ (rev l));
        [reflexivity | apply Forall2_rev; exact Hl].
    + apply StronglySorted_rev.
  - intros pre row post e Hsplit Hpost Hrow.
    rewrite Hsplit, rev_app_distr. cbn [rev]. rewrite <- (assoc_L (++)).
    apply (reconstructAll_err impl (self w)); [| exact Hrow].
    apply Forall_rev. exact Hpost.
  - intros row Hin Hrow.
    apply (reconstructAll_not_ok impl (self w) _ row); [| exact Hrow].
    apply in_rev. rewrite rev_involutive. exact Hin.
Qed.

Lemma RecentStats_order_and_abort_witness :
  fst (RecentStats sampleImpl "web" 3 sampleQueryWorld)
  = Ok [sampleAt 10 1; sampleAt 20 2; sampleAt 30 3].
Proof.
  destruct (RecentStats_order_and_abort sampleImpl "web" 3 sampleQueryClient
              (fst (Query sampleQueryClient ""%string)) sampleQueryWorld)
    as (H & _); [lia | reflexivity | reflexivity |].
  rewrite H. vm_compute. reflexivity.
Defined.

(** * Further properties of the driver *)

(** ** getSeriesDefaultValues *)

(** The function does compute the three default columns and values, on
    slices of its own, while the caller's headers keep what they held. *)
Lemma getSeriesDefaultValues_run impl ref st w0 w c v cols vals :
  building w0 w c v cols vals ->
  returns (getSeriesDefaultValues impl ref (Some st) c v) w (fun _ w' =>
    building w0 w' c v cols vals
    /\ exists c' v',
         building w0 w' c' v' (cols ++ defaultColumns)
           (vals ++ defaultValues (self w0) ref st)).
Proof.
  intros Hb.
  assert (Hk : kept w c v cols vals c v).
  { destruct Hb as (_ & _ & Hwc & _ & Hvc & Hwv & _ & Hvv).
    unfold kept. split_and!; auto. }
  assert (Hown : owned (length (strings w0)) c /\ owned (length (ifaces w0)) v).
  { destruct Hb as (_ & _ & _ & Hoc & _ & _ & Hov & _). auto. }
  unfold getSeriesDefaultValues.
  apply returns_bind. eapply returns_conseq; [eapply appendS_kept; eauto |].
  cbv beta. clear Hb Hk. intros c1 w1 [Hb Hk].
  apply returns_bind. apply returns_lift.
  apply returns_bind. eapply returns_conseq; [eapply appendV_kept; eauto |].
  cbv beta. clear Hb Hk. intros v1 w2 [Hb Hk].
  apply returns_bind. eapply returns_conseq; [eapply appendS_kept; eauto |].
  cbv beta. clear Hb Hk. intros c2 w3 [Hb Hk].
  apply returns_bind. apply returns_get.
  destruct (building_frame _ _ _ _ _ _ Hb) as [(Hs3 & _) _]. rewrite Hs3.
  apply returns_bind. eapply returns_conseq; [eapply appendV_kept; eauto |].
  cbv beta. clear Hb Hk. intros v2 w4 [Hb Hk].
  apply returns_bind. eapply returns_conseq; [eapply appendS_kept; eauto |].
  cbv beta. clear Hb Hk. intros c3 w5 [Hb Hk].
  apply returns_bind.
  eapply returns_conseq.
  { instantiate (1 := fun v' w' =>
      building w0 w' c3 v' (cols ++ defaultColumns)
        (vals ++ defaultValues (self w0) ref st)
      /\ kept w' c v cols vals c3 v').
    unfold defaultColumns, defaultValues.
    replace (cols ++ [colTimestamp; colMachineName; colContainerName])
      with (((cols ++ [colTimestamp]) ++ [colMachineName]) ++ [colContainerName])
      by (rewrite <- !(assoc_L (++)); reflexivity).
    destruct (Aliases ref) as [| a0 rest].
    - eapply returns_conseq; [eapply appendV_kept; eauto |].
      cbv beta. intros ? ? [H1 H2]. split; [| exact H2].
      rewrite <- !(assoc_L (++)) in H1. rewrite <- !(assoc_L (++)). exact H1.
    - eapply returns_conseq; [eapply appendV_kept; eauto |].
      cbv beta. intros ? ? [H1 H2]. split; [| exact H2].
      rewrite <- !(assoc_L (++)) in H1. rewrite <- !(assoc_L (++)). exact H1. }
  cbv beta. clear Hb Hk. intros v3 w6 (Hb & Hk).
  apply returns_ret. split; [| eauto].
  destruct Hb as (Hom & Hext & _ & _ & _ & _ & _ & _).
  destruct Hk as (Hk1 & Hk2 & _ & Hk4 & Hk5 & _). destruct Hown.
  unfold building. split_and!; auto.
Qed.

(** X1.  Called with any two well-formed slices, getSeriesDefaultValues
    returns normally and changes memory only: it does build the columns
    time, machine, container_name and their values (the sample's time in
    microseconds, the host, and the first alias or else the name) after
    the caller's elements, but on headers of its own; the caller's two
    slices hold exactly what they held before the call, even when they had
    spare capacity. *)
Theorem getSeriesDefaultValues_appends_to_copies impl ref st w c v :
  wf (strings w) c -> wf (ifaces w) v ->
  returns (getSeriesDefaultValues impl ref (Some st) c v) w (fun _ w' =>
    only_mem w w'
    /\ wf (strings w') c /\ view (strings w') c = view (strings w) c
    /\ wf (ifaces w') v /\ view (ifaces w') v = view (ifaces w) v
    /\ exists c' v',
         view (strings w') c' = view (strings w) c ++ defaultColumns
         /\ view (ifaces w') v'
            = view (ifaces w) v ++ defaultValues (self w) ref st).
Proof.
  intros Hc Hv.
  set (w0 := with_strings [] (with_ifaces [] w)).
  assert (Hb : building w0 w c v (view (strings w) c) (view (ifaces w) v)).
  { unfold building, only_mem, mem_ext, owned. subst w0. cbn.
    split_and!; auto; try (right; lia); apply prefix_nil. }
  eapply returns_conseq; [eapply getSeriesDefaultValues_run; exact Hb |].
  cbv beta. intros _ w' (Hb1 & c' & v' & Hb2).
  destruct Hb1 as ((Hs & Hcl & Htk & Htr) & _ & Hwc & _ & Hvc & Hwv & _ & Hvv).
  destruct Hb2 as (_ & _ & _ & _ & Hvc' & _ & _ & Hvv').
  subst w0. cbn in Hs, Hcl, Htk, Htr, Hvv'.
  split; [repeat split; assumption |].
  split_and!; auto. exists c', v'. split; assumption.
Qed.

Lemma getSeriesDefaultValues_appends_to_copies_witness :
  returns (getSeriesDefaultValues sampleImpl sampleRef (Some sampleStats)
             nilSlice nilSlice) sampleWorld (fun _ w' =>
    only_mem sampleWorld w'
    /\ wf (strings w') nilSlice
    /\ view (strings w') nilSlice = view (strings sampleWorld) nilSlice
    /\ wf (ifaces w') nilSlice
    /\ view (ifaces w') nilSlice = view (ifaces sampleWorld) nilSlice
    /\ exists c' v',
         view (strings w') c' = view (strings sampleWorld) nilSlice ++ defaultColumns
         /\ view (ifaces w') v'
            = view (ifaces sampleWorld) nilSlice
              ++ defaultValues (self sampleWorld) sampleRef sampleStats).
Proof.
  apply (getSeriesDefaultValues_appends_to_copies sampleImpl sampleRef
           sampleStats sampleWorld nilSlice nilSlice);
    (split; [cbn; lia | left; reflexivity]).
Defined.

(** ** AddStats: buffering and accumulation *)

Lemma series_data_ext w w' s :
  series_wf w s -> mem_ext w w' -> series_data w' s = series_data w s.
Proof.
  intros [Hc Hp] [Hs Hi]. unfold series_data. f_equal.
  - apply view_prefix; assumption.
  - induction Hp as [| p l Hwp _ IH]; cbn [map]; [reflexivity |].
    f_equal; [apply view_prefix; assumption | exact IH].
Qed.

(** AddStats on a valid sample is its locked section followed, when the
    section handed over a batch, by the store write. *)
Lemma AddStats_after_locked impl ref st cpu mem w batch w1 :
  Cpu st = Some cpu -> Memory st = Some mem ->
  AddStats_func1 impl ref (Some st) w = (Ok batch, w1) ->
  AddStats impl ref (Some st) w
  = if (0 <? length batch)%nat then
      match client (self w1) with
      | None => (Panic nilDereference, w1)
      | Some c =>
          let data := map (series_data w1) batch in
          (match WriteSeriesWithTimePrecision c data Microsecond with
           | Some e => Err (errWriteFailed e)
           | None => Ok tt
           end,
           with_trace (trace w1 ++ [EvWriteSeries data Microsecond]) w1)
      end
    else (Ok tt, w1).
Proof.
  intros Hcpu Hmem Hrun. unfold AddStats. rewrite Hcpu, Hmem.
  unfold bind at 1. rewrite Hrun.
  destruct (0 <? length batch)%nat; [| reflexivity].
  unfold client_WriteSeries, bind, get, lift, emit, modify, ret, deref.
  destruct (client (self w1)) as [c |]; [| reflexivity].
  cbn [self with_trace].
  destruct (WriteSeriesWithTimePrecision c (map (series_data w1) batch)
              Microsecond); reflexivity.
Qed.

(** X2.  Under the default flush policy, a valid sample that arrives less
    than bufferDuration after the last write is only buffered: AddStats
    returns no error, takes one reading of the clock, appends the 1 + k
    rows of the sample to the pending batch, keeps lastWrite, and its
    trace is Lock, the two batch assignments, Unlock: no store write.  The
    client is not used, so this holds after Close as well. *)
Theorem AddStats_buffers_until_due impl ref st cpu mem w :
  Cpu st = Some cpu -> Memory st = Some mem ->
  readyToFlush (self w) = policyDefault ->
  Time_Sub (clock w (ticks w)) (lastWrite (self w)) < bufferDuration (self w) ->
  exists rows w',
    AddStats impl ref (Some st) w = (Ok tt, w')
    /\ series (self w') = series (self w) ++ rows
    /\ map (series_data w') rows = sampleRows (tableName (self w)) st cpu mem
    /\ lastWrite (self w') = lastWrite (self w)
    /\ ticks w' = S (ticks w)
    /\ trace w' = trace w
         ++ [EvLock; EvSetSeries (series (self w) ++ take 1 rows);
             EvSetSeries (series (self w) ++ rows); EvUnlock].
Proof.
  intros Hcpu Hmem Hpol Hdue.
  destruct (returns_run _ _ _ (AddStats_func1_rows impl ref st cpu mem w Hcpu Hmem))
    as (batch & w1 & Hrun & core & fsrows & Hdata & _ & Hb & Hs & _ & Hk & Ht & _).
  cbv zeta in *.
  assert (Hready : forall p, policy_ready w p = false).
  { intros p. unfold policy_ready. rewrite Hpol. apply Z.leb_gt. exact Hdue. }
  assert (Hreads : policy_reads w = 1%nat) by (unfold policy_reads; now rewrite Hpol).
  rewrite Hready in *. rewrite Hreads in *. subst batch.
  exists (core :: fsrows), w1.
  rewrite (AddStats_after_locked impl ref st cpu mem w [] w1 Hcpu Hmem Hrun).
  cbn [length Nat.ltb Nat.leb]. rewrite Hs. cbn [series lastWrite set_series].
  split_and!; auto. lia.
Qed.

Lemma AddStats_buffers_until_due_witness :
  exists rows w',
    AddStats sampleImpl sampleRef (Some sampleStats) sampleDefaultWorld
    = (Ok tt, w')
    /\ length rows = 3%nat /\ series (self w') = rows.
Proof.
  destruct (AddStats_buffers_until_due sampleImpl sampleRef sampleStats
              sampleCpu sampleMemory sampleDefaultWorld
              eq_refl eq_refl eq_refl eq_refl)
    as (rows & w' & Hrun & Hser & Hdata & _).
  exists rows, w'. split; [exact Hrun |]. split; [| exact Hser].
  apply (f_equal (@length _)) in Hdata. rewrite length_map in Hdata.
  exact Hdata.
Defined.

(** X3.  Rows accumulate across calls until a flush takes them all.  Start
    from an empty pending batch and call AddStats for two valid samples: if
    the first call leaves the batch non-empty (it did not flush) and the
    second leaves it empty (it flushed), then the first call returned no
    error and wrote nothing, and the second call made exactly one store
    write, at microsecond precision, of the rows of the first sample
    followed by the rows of the second; its result is that write's. *)
Theorem AddStats_accumulates impl ref1 st1 cpu1 mem1 ref2 st2 cpu2 mem2 c w :
  Cpu st1 = Some cpu1 -> Memory st1 = Some mem1 ->
  Cpu st2 = Some cpu2 -> Memory st2 = Some mem2 ->
  series (self w) = [] -> client (self w) = Some c ->
  let r1 := fst (AddStats impl ref1 (Some st1) w) in
  let w1 := snd (AddStats impl ref1 (Some st1) w) in
  let r2 := fst (AddStats impl ref2 (Some st2) w1) in
  let w2 := snd (AddStats impl ref2 (Some st2) w1) in
  let data := sampleRows (tableName (self w)) st1 cpu1 mem1
              ++ sampleRows (tableName (self w)) st2 cpu2 mem2 in
  series (self w1) <> [] -> series (self w2) = [] ->
  r1 = Ok tt
  /\ List.filter is_write (trace w1) = List.filter is_write (trace w)
  /\ List.filter is_write (trace w2)
     = List.filter is_write (trace w) ++ [EvWriteSeries data Microsecond]
  /\ r2 = match WriteSeriesWithTimePrecision c data Microsecond with
          | Some e => Err (errWriteFailed e)
          | None => Ok tt
          end.
Proof.
  intros Hcpu1 Hmem1 Hcpu2 Hmem2 Hempty Hcl.
  destruct (returns_run _ _ _
              (AddStats_func1_rows impl ref1 st1 cpu1 mem1 w Hcpu1 Hmem1))
    as (b1 & wa & Hrun1 & core1 & fs1 & Hdata1 & _ & Hb1 & Hs1 & _ & _ & Ht1 & Hwf1).
  cbv zeta in Hdata1, Hb1, Hs1, Ht1, Hwf1.
  rewrite (AddStats_after_locked impl ref1 st1 cpu1 mem1 w b1 wa Hcpu1 Hmem1 Hrun1).
  rewrite Hempty in *. cbn [app] in *.
  destruct (policy_ready w (core1 :: fs1)).
  { (* the first call flushed: its batch is empty afterwards *)
    subst b1. cbn [length Nat.ltb Nat.leb]. rewrite Hs1.
    cbn [client set_lastWrite set_series]. rewrite Hcl. cbn [fst snd].
    intros H. exfalso. apply H. cbn [self with_trace]. rewrite Hs1. reflexivity. }
  subst b1. cbn [length Nat.ltb Nat.leb fst snd].
  destruct (returns_run _ _ _
              (AddStats_func1_rows impl ref2 st2 cpu2 mem2 wa Hcpu2 Hmem2))
    as (b2 & wb & Hrun2 & core2 & fs2 & Hdata2 & Hext2 & Hb2 & Hs2 & _ & _ & Ht2 & _).
  cbv zeta in Hdata2, Hb2, Hs2, Ht2.
  rewrite (AddStats_after_locked impl ref2 st2 cpu2 mem2 wa b2 wb Hcpu2 Hmem2 Hrun2).
  rewrite Hs1 in Hb2, Hs2, Ht2, Hdata2. cbn [series set_series tableName] in *.
  destruct (policy_ready wa ((core1 :: fs1) ++ core2 :: fs2)).
  2: { (* the second call did not flush: its batch is not empty *)
    subst b2. cbn [length Nat.ltb Nat.leb fst snd]. intros _ H. exfalso.
    rewrite Hs2 in H. cbn [series set_series] in H. discriminate H. }
  subst b2.
  assert (Hpos : (0 <? length ((core1 :: fs1) ++ core2 :: fs2))%nat = true)
    by reflexivity.
  rewrite Hpos, Hs2. cbn [client set_lastWrite set_series]. rewrite Hcl.
  cbn [fst snd trace with_trace].
  assert (Hd : map (series_data wb) ((core1 :: fs1) ++ core2 :: fs2)
               = sampleRows (tableName (self w)) st1 cpu1 mem1
                 ++ sampleRows (tableName (self w)) st2 cpu2 mem2).
  { rewrite map_app, Hdata2. f_equal. rewrite <- Hdata1.
    clear -Hwf1 Hext2. induction Hwf1 as [| s l Hs _ IH]; cbn [map]; [reflexivity |].
    f_equal; [apply series_data_ext; assumption | exact IH]. }
  rewrite Hd. intros _ _.
  split; [reflexivity |]. split; [| split; [| reflexivity]].
  - rewrite Ht1, !List.filter_app. cbn. rewrite !app_nil_r. reflexivity.
  - rewrite Ht2, Ht1, !List.filter_app. cbn. rewrite !app_nil_r. reflexivity.
Qed.

Lemma AddStats_accumulates_witness :
  fst (AddStats sampleImpl sampleRef (Some sampleStatsNoFs)
         (snd (AddStats sampleImpl sampleRef (Some sampleStats)
                 sampleThresholdWorld)))
  = Err (errWriteFailed (errStore "connection refused")).
Proof.
  pose proof (AddStats_accumulates sampleImpl sampleRef sampleStats sampleCpu
                sampleMemory sampleRef sampleStatsNoFs sampleCpu sampleMemory
                sampleClient sampleThresholdWorld
                eq_refl eq_refl eq_refl eq_refl eq_refl eq_refl) as H.
  cbv zeta in H.
  destruct H as (_ & _ & _ & H).
  - vm_compute. discriminate.
  - vm_compute. reflexivity.
  - rewrite H. reflexivity.
Defined.

(** ** valuesToContainerStats: columns, values and panics *)

Section ReadPathMore.
Variable impl : GoImpl.
Variable self : influxdbStorage.

(** The loop looks at the values only at the indices of its columns. *)
Lemma valuesToContainerStats_loop_ext values values' columns :
  forall i i' stats err,
  (forall k, (k < length columns)%nat ->
     values !! (i + k)%nat = values' !! (i' + k)%nat
     /\ is_Some (values !! (i + k)%nat)) ->
  valuesToContainerStats_loop impl self values i columns stats err
  = valuesToContainerStats_loop impl self values' i' columns stats err.
Proof.
  induction columns as [| col columns' IH]; intros i i' stats err H;
    [reflexivity |].
  cbn [valuesToContainerStats_loop].
  destruct (H 0%nat ltac:(cbn; lia)) as [Heq [v Hv]].
  rewrite !Nat.add_0_r in *. rewrite <- Heq, Hv.
  destruct (valuesToContainerStats_case impl self col v stats err)
    as [[stats' err'] | e | p]; cbn [rbind]; try reflexivity.
  destruct err' as [e |]; [reflexivity |].
  apply IH. intros k Hk. specialize (H (S k) ltac:(cbn; lia)).
  rewrite !Nat.add_succ_r in H. exact H.
Qed.

(** A column the switch has no case for leaves the record as it is. *)
Lemma valuesToContainerStats_case_unrecognized col v stats err :
  ~ In col recognizedColumns ->
  valuesToContainerStats_case impl self col v stats err = Ok (stats, err).
Proof.
  intros Hno. unfold valuesToContainerStats_case.
  repeat match goal with
         | |- context [String.eqb col ?c] =>
             destruct (String.eqb_spec col c) as [-> | _];
             [exfalso; apply Hno; cbn; tauto |]
         end.
  reflexivity.
Qed.

End ReadPathMore.

(** X4.  A column valuesToContainerStats has no case for, container_name
    among them, is skipped together with its value: on a row with at least
    as many values as columns, removing such a column and the value at its
    position does not change the outcome. *)
Theorem valuesToContainerStats_ignores_unrecognized
    impl self pre post vpre vpost col v :
  ~ In col recognizedColumns ->
  length vpre = length pre -> (length post <= length vpost)%nat ->
  valuesToContainerStats impl self (pre ++ col :: post) (vpre ++ v :: vpost)
  = valuesToContainerStats impl self (pre ++ post) (vpre ++ vpost).
Proof.
  intros Hno Hpre Hpost. unfold valuesToContainerStats.
  rewrite !valuesToContainerStats_loop_app.
  rewrite (valuesToContainerStats_loop_ext impl self (vpre ++ v :: vpost)
             (vpre ++ vpost) pre 0 0).
  2: { intros k Hk. cbn [Nat.add].
       rewrite !lookup_app_l by lia. split; [reflexivity |].
       apply lookup_lt_is_Some. lia. }
  destruct (valuesToContainerStats_loop impl self (vpre ++ vpost) 0 pre
              emptyStats None) as [[st |] | e | p]; try reflexivity.
  cbn [valuesToContainerStats_loop Nat.add].
  rewrite lookup_app_r by lia. rewrite <- Hpre, Nat.sub_diag. cbn [lookup list_lookup].
  rewrite valuesToContainerStats_case_unrecognized by exact Hno. cbn [rbind].
  apply valuesToContainerStats_loop_ext. intros k Hk.
  rewrite !lookup_app_r by lia.
  replace (S (length vpre) + k - length vpre)%nat with (S k) by lia.
  replace (length vpre + k - length vpre)%nat with k by lia.
  cbn [lookup list_lookup]. split; [reflexivity |].
  apply lookup_lt_is_Some. lia.
Qed.

Lemma valuesToContainerStats_ignores_unrecognized_witness :
  valuesToContainerStats sampleImpl sampleStorage
    ([colMachineName] ++ colContainerName :: [colCpuCumulativeUsage])
    ([VString "machine-A"] ++ VString "web" :: [VUint64 5])
  = valuesToContainerStats sampleImpl sampleStorage
      ([colMachineName] ++ [colCpuCumulativeUsage])
      ([VString "machine-A"] ++ [VUint64 5]).
Proof.
  apply (valuesToContainerStats_ignores_unrecognized sampleImpl sampleStorage
           [colMachineName] [colCpuCumulativeUsage]
           [VString "machine-A"] [VUint64 5] colContainerName (VString "web")).
  - cbn. intros H. repeat (destruct H as [H | H]; try discriminate H). exact H.
  - reflexivity.
  - cbn. lia.
Defined.

(** X5.  valuesToContainerStats indexes the values by the position of each
    column.  With at least as many values as columns it never panics, and
    values beyond the columns are not looked at.  With fewer values than
    columns, once the columns that have a value go through, it panics with
    an index out of range at the first column without one. *)
Theorem valuesToContainerStats_index impl self columns values :
  ((length columns <= length values)%nat ->
     (forall p, valuesToContainerStats impl self columns values <> Panic p)
     /\ (forall extra,
           valuesToContainerStats impl self columns (values ++ extra)
           = valuesToContainerStats impl self columns values))
  /\ ((length values < length columns)%nat ->
      is_Ok (valuesToContainerStats impl self (take (length values) columns)
               values) = true ->
      valuesToContainerStats impl self columns values
      = Panic (indexOutOfRange (length values) (length values))).
Proof.
  split.
  - intros Hlen. split.
    + intros p. apply valuesToContainerStats_loop_no_panic;
        [apply emptyStats_allocated | cbn; lia].
    + intros extra. apply valuesToContainerStats_loop_ext. intros k Hk.
      cbn [Nat.add]. rewrite lookup_app_l by lia. split; [reflexivity |].
      apply lookup_lt_is_Some. lia.
  - intros Hlen Hok. unfold valuesToContainerStats in *.
    rewrite <- (take_drop (length values) columns) at 1.
    rewrite valuesToContainerStats_loop_app.
    destruct (valuesToContainerStats_loop impl self values 0
                (take (length values) columns) emptyStats None)
      as [r | e | p] eqn:Hpre; try discriminate Hok.
    destruct (valuesToContainerStats_loop_allocated impl self _ _ _ _ _
                emptyStats_allocated Hpre) as (st & -> & _).
    rewrite length_take, Nat.min_l by lia. cbn [Nat.add].
    destruct (drop (length values) columns) as [| col rest] eqn:Hdrop.
    + apply (f_equal (@length _)) in Hdrop. rewrite length_drop in Hdrop.
      cbn in Hdrop. lia.
    + cbn [valuesToContainerStats_loop].
      rewrite (lookup_ge_None_2 values (length values)) by lia. reflexivity.
Qed.

Lemma valuesToContainerStats_index_witness :
  valuesToContainerStats sampleImpl sampleStorage
    [colCpuCumulativeUsage; colMemoryUsage] [VUint64 5]
  = Panic (indexOutOfRange 1 1).
Proof.
  destruct (valuesToContainerStats_index sampleImpl sampleStorage
              [colCpuCumulativeUsage; colMemoryUsage] [VUint64 5]) as [_ H].
  apply H; [cbn; lia | reflexivity].
Defined.

(** ** valuesToContainerStats: the timestamp *)

Section Timestamp.
Variable impl : GoImpl.
Variable self : influxdbStorage.

(** Only a time column holding a float64, met while the timestamp is still
    zero, changes the timestamp. *)
Lemma valuesToContainerStats_case_timestamp col v stats err stats' err' :
  valuesToContainerStats_case impl self col v stats err = Ok (stats', err') ->
  col <> colTimestamp \/ Time_IsZero (Timestamp stats) = false
  \/ (forall x, v <> VFloat64 x) ->
  Timestamp stats' = Timestamp stats.
Proof.
  intros Hrun Hcond. unfold valuesToContainerStats_case in Hrun.
  destruct (String.eqb_spec col colTimestamp) as [-> | Hne].
  - destruct v; try (injection Hrun as <- _; reflexivity).
    destruct (Time_IsZero (Timestamp stats)) eqn:Ez;
      [| injection Hrun as <- _; reflexivity].
    destruct Hcond as [H | [H | H]]; [congruence | discriminate | ].
    exfalso. eapply H. reflexivity.
  - clear Hcond Hne. unfold rbind, deref in Hrun.
    repeat case_match; simplify_eq; reflexivity.
Qed.

(** Once the timestamp is not zero, the rest of the loop keeps it. *)
Lemma valuesToContainerStats_loop_keeps_time values columns :
  forall i stats st',
  Time_IsZero (Timestamp stats) = false ->
  valuesToContainerStats_loop impl self values i columns stats None
  = Ok (Some st') ->
  Timestamp st' = Timestamp stats.
Proof.
  induction columns as [| col columns' IH]; intros i stats st' Hz Hrun.
  - cbn in Hrun. injection Hrun as <-. reflexivity.
  - cbn [valuesToContainerStats_loop] in Hrun.
    destruct (values !! i) as [v |]; [| discriminate].
    destruct (valuesToContainerStats_case impl self col v stats None)
      as [[stats' err'] | e | p] eqn:Hcase; cbn [rbind] in Hrun;
      try discriminate.
    destruct err' as [e |]; [discriminate |].
    assert (Ht : Timestamp stats' = Timestamp stats)
      by (eapply valuesToContainerStats_case_timestamp; eauto).
    rewrite <- Ht. eapply IH; [rewrite Ht; exact Hz | exact Hrun].
Qed.

(** Columns without a float64 time value leave the timestamp alone. *)
Lemma valuesToContainerStats_loop_no_time values columns :
  forall i stats st',
  (forall k v x, columns !! k = Some colTimestamp ->
     values !! (i + k)%nat = Some v -> v <> VFloat64 x) ->
  valuesToContainerStats_loop impl self values i columns stats None
  = Ok (Some st') ->
  Timestamp st' = Timestamp stats.
Proof.
  induction columns as [| col columns' IH]; intros i stats st' Hno Hrun.
  - cbn in Hrun. injection Hrun as <-. reflexivity.
  - cbn [valuesToContainerStats_loop] in Hrun.
    destruct (values !! i) as [v |] eqn:Ev; [| discriminate].
    destruct (valuesToContainerStats_case impl self col v stats None)
      as [[stats' err'] | e | p] eqn:Hcase; cbn [rbind] in Hrun;
      try discriminate.
    destruct err' as [e |]; [discriminate |].
    assert (Ht : Timestamp stats' = Timestamp stats).
    { eapply valuesToContainerStats_case_timestamp; [exact Hcase |].
      destruct (String.eqb_spec col colTimestamp) as [-> | Hne]; [| now left].
      right. right. intros x. apply (Hno 0%nat v x); [reflexivity |].
      rewrite Nat.add_0_r. exact Ev. }
    rewrite <- Ht. eapply IH; [| exact Hrun].
    intros k v' x Hk Hv. apply (Hno (S k) v' x); [exact Hk |].
    rewrite Nat.add_succ_r. exact Hv.
Qed.

(** A time column holding anything but a float64 leaves the record and the
    pending error as they are. *)
Lemma valuesToContainerStats_case_time_not_float v stats err :
  (forall x, v <> VFloat64 x) ->
  valuesToContainerStats_case impl self colTimestamp v stats err
  = Ok (stats, err).
Proof.
  intros Hnf. unfold valuesToContainerStats_case.
  rewrite String.eqb_refl.
  destruct v; try reflexivity. exfalso. eapply Hnf. reflexivity.
Qed.

(** A column whose case changes nothing can be taken out of the row, with
    the value at its position, without changing the outcome. *)
Lemma valuesToContainerStats_skip pre post vpre vpost col v :
  (forall stats err,
     valuesToContainerStats_case impl self col v stats err = Ok (stats, err)) ->
  length vpre = length pre -> (length post <= length vpost)%nat ->
  valuesToContainerStats impl self (pre ++ col :: post) (vpre ++ v :: vpost)
  = valuesToContainerStats impl self (pre ++ post) (vpre ++ vpost).
Proof.
  intros Hcase Hpre Hpost. unfold valuesToContainerStats.
  rewrite !valuesToContainerStats_loop_app.
  rewrite (valuesToContainerStats_loop_ext impl self (vpre ++ v :: vpost)
             (vpre ++ vpost) pre 0 0).
  2: { intros k Hk. cbn [Nat.add].
       rewrite !lookup_app_l by lia. split; [reflexivity |].
       apply lookup_lt_is_Some. lia. }
  destruct (valuesToContainerStats_loop impl self (vpre ++ vpost) 0 pre
              emptyStats None) as [[st |] | e | p]; try reflexivity.
  cbn [valuesToContainerStats_loop Nat.add].
  rewrite lookup_app_r by lia. rewrite <- Hpre, Nat.sub_diag.
  cbn [lookup list_lookup].
  rewrite Hcase. cbn [rbind].
  apply valuesToContainerStats_loop_ext. intros k Hk.
  rewrite !lookup_app_r by lia.
  replace (S (length vpre) + k - length vpre)%nat with (S k) by lia.
  replace (length vpre + k - length vpre)%nat with k by lia.
  cbn [lookup list_lookup]. split; [reflexivity |].
  apply lookup_lt_is_Some. lia.
Qed.

End Timestamp.

(** X6.  A time column is used only when it holds a float64.  A time value
    of any other dynamic type (the int64 the write path produces, nil, a
    string) is skipped without an error: on a row with at least as many
    values as columns, the outcome is that of the row without this column
    and its value.  In a reconstructed sample the timestamp comes from the
    first time column that holds a float64: when the time it decodes to is
    not the zero time, no later column changes it; and when no time column
    holds a float64, the timestamp is the zero time. *)
Theorem valuesToContainerStats_first_time_wins impl self columns values :
  (forall i v,
     columns !! i = Some colTimestamp -> values !! i = Some v ->
     (forall y, v <> VFloat64 y) ->
     (length columns <= length values)%nat ->
     valuesToContainerStats impl self columns values
     = valuesToContainerStats impl self (delete i columns) (delete i values))
  /\ (forall st',
        valuesToContainerStats impl self columns values = Ok (Some st') ->
        (forall i x,
           columns !! i = Some colTimestamp ->
           values !! i = Some (VFloat64 x) ->
           (forall j v y, (j < i)%nat -> columns !! j = Some colTimestamp ->
              values !! j = Some v -> v <> VFloat64 y) ->
           Time_IsZero (decodedTime impl x) = false ->
           Timestamp st' = decodedTime impl x)
        /\ ((forall j v y, columns !! j = Some colTimestamp ->
               values !! j = Some v -> v <> VFloat64 y) ->
            Timestamp st' = Time_zero)).
Proof.
  split.
  - intros i v Hcol Hval Hnf Hlen.
    pose proof (lookup_lt_Some _ _ _ Hcol) as Hi.
    rewrite !delete_take_drop.
    rewrite <- (valuesToContainerStats_skip impl self (take i columns)
                  (drop (S i) columns) (take i values) (drop (S i) values)
                  colTimestamp v).
    + rewrite (take_drop_middle columns i colTimestamp Hcol).
      rewrite (take_drop_middle values i v Hval). reflexivity.
    + intros stats err.
      apply valuesToContainerStats_case_time_not_float. exact Hnf.
    + rewrite !length_take. lia.
    + rewrite !length_drop. lia.
  - intros st' Hrun. split.
    + intros i x Hcol Hval Hfirst Hnz.
      destruct (valuesToContainerStats_at impl self columns values i _ _
                  Hcol Hval)
        as [(e & _ & Hall) | (stats & _ & Hpre & Hall)]; [congruence |].
      assert (Hzero : Timestamp stats = Time_zero).
      { apply (valuesToContainerStats_loop_no_time impl self values
                 (take i columns) 0 emptyStats stats); [| exact Hpre].
        intros k v y Hk Hv. cbn [Nat.add] in Hv.
        assert (Hki : (k < i)%nat).
        { apply lookup_lt_Some in Hk. rewrite length_take in Hk. lia. }
        rewrite lookup_take_lt in Hk by exact Hki. eapply Hfirst; eauto. }
      rewrite Hrun in Hall. unfold valuesToContainerStats_case in Hall.
      cbn [String.eqb Ascii.eqb Bool.eqb colTimestamp] in Hall.
      rewrite Hzero in Hall.
      cbn [Time_IsZero Time_zero t_sec t_nsec Z.eqb andb rbind] in Hall.
      symmetry in Hall.
      apply valuesToContainerStats_loop_keeps_time in Hall; [exact Hall |].
      exact Hnz.
    + intros Hno.
      apply (valuesToContainerStats_loop_no_time impl self values columns 0
               emptyStats st'); [| exact Hrun].
      intros k v y Hk Hv. eapply Hno; eauto.
Qed.

Lemma valuesToContainerStats_first_time_wins_witness :
  valuesToContainerStats sampleImpl sampleStorage
    [colTimestamp; colCpuCumulativeUsage; colTimestamp; colTimestamp]
    [VInt64 1400000030000005; VFloat64 (S754_finite false 3 0);
     VFloat64 (S754_finite false 30000 0);
     VFloat64 (S754_finite false 99000 0)]
  = valuesToContainerStats sampleImpl sampleStorage
      [colCpuCumulativeUsage; colTimestamp; colTimestamp]
      [VFloat64 (S754_finite false 3 0);
       VFloat64 (S754_finite false 30000 0);
       VFloat64 (S754_finite false 99000 0)]
  /\ Timestamp (sampleAt 30 3)
     = decodedTime sampleImpl (S754_finite false 30000 0).
Proof.
  destruct (valuesToContainerStats_first_time_wins sampleImpl sampleStorage
              [colTimestamp; colCpuCumulativeUsage; colTimestamp;
               colTimestamp]
              [VInt64 1400000030000005; VFloat64 (S754_finite false 3 0);
               VFloat64 (S754_finite false 30000 0);
               VFloat64 (S754_finite false 99000 0)]) as [Hskip Hok].
  split.
  - apply (Hskip 0%nat (VInt64 1400000030000005) eq_refl eq_refl).
    + intros y. discriminate.
    + cbn. lia.
  - destruct (Hok (sampleAt 30 3)) as [Hfirst _].
    + vm_compute. reflexivity.
    + apply (Hfirst 2%nat (S754_finite false 30000 0) eq_refl eq_refl).
      * intros j v y Hj Hc Hv.
        destruct j as [| [| j]]; [| discriminate Hc | lia].
        injection Hv as <-. discriminate.
      * vm_compute. reflexivity.
Defined.

Lemma int64_id z : is_int64 z -> int64 z = z.
Proof.
  unfold is_int64, int64, two63, two64. intros H.
  rewrite Z.mod_small by lia. lia.
Qed.

(** X7.  A time column is read as milliseconds since the Unix epoch.  For a
    float64 whose integer part n lies within 9 * 10^12 of zero (the years
    1684 to 2255), a row holding it in a time column reconstructs to a
    sample whose timestamp has a nanosecond field in [0, 10^9) and lies
    n * 10^6 nanoseconds from the epoch, also for times before the epoch. *)
Theorem valuesToContainerStats_time_in_milliseconds impl self x n :
  f64_trunc x = Some n -> - 9000000000000 <= n <= 9000000000000 ->
  exists st',
    valuesToContainerStats impl self [colTimestamp] [VFloat64 x] = Ok (Some st')
    /\ 0 <= t_nsec (Timestamp st') < 1000000000
    /\ Time_UnixNano (Timestamp st') = n * 1000000.
Proof.
  intros Hx Hn.
  exists (set_Timestamp (decodedTime impl x) emptyStats).
  split; [reflexivity |]. cbn [Timestamp set_Timestamp].
  unfold decodedTime, f64_to_int64. rewrite Hx.
  assert (Hr : (- two63 <=? n) && (n <? two63) = true).
  { apply andb_true_iff. unfold two63. split; [apply Z.leb_le | apply Z.ltb_lt]; lia. }
  rewrite Hr.
  pose proof (Z.quot_rem' n 1000) as Hqr.
  assert (Hb : (0 <= n -> 0 <= Z.rem n 1000 < 1000)
               /\ (n < 0 -> - 1000 < Z.rem n 1000 <= 0)).
  { split; intros Hs.
    - apply Z.rem_bound_pos; lia.
    - pose proof (Z.rem_bound_pos (- n) 1000 ltac:(lia) ltac:(lia)) as H.
      rewrite Z.rem_opp_l in H by lia. lia. }
  set (q := Z.quot n 1000) in *. set (r := Z.rem n 1000) in *.
  clearbody q r. destruct Hb as [Hpos Hneg].
  assert (Hi : int64 (r * 1000000) = r * 1000000).
  { apply int64_id. unfold is_int64, two63. lia. }
  rewrite Hi. unfold time_Unix.
  assert (Hge : (1000000000 <=? r * 1000000) = false) by (apply Z.leb_gt; lia).
  rewrite Hge, orb_false_r.
  destruct (Z.ltb_spec (r * 1000000) 0) as [Hlt | Hnl].
  - assert (Hq0 : Z.quot (r * 1000000) 1000000000 = 0).
    { apply Z.quot_small_iff; [lia |]. lia. }
    rewrite Hq0. replace (0 * 1000000000) with 0 by reflexivity.
    assert (H0 : int64 0 = 0) by reflexivity. rewrite H0, Z.add_0_r, Z.sub_0_r.
    rewrite (int64_id q) by (unfold is_int64, two63; lia).
    rewrite Hi.
    destruct (Z.ltb_spec (r * 1000000) 0) as [_ | ?]; [| lia].
    rewrite (int64_id (q - 1)) by (unfold is_int64, two63; lia).
    rewrite (int64_id (r * 1000000 + 1000000000))
      by (unfold is_int64, two63; lia).
    rewrite (int64_id (q - 1 + unixToInternal))
      by (unfold is_int64, two63, unixToInternal; lia).
    cbn [t_sec t_nsec]. unfold Time_UnixNano. cbn [t_sec t_nsec].
    unfold internalToUnix. split; [lia |].
    rewrite int64_id by (unfold is_int64, two63, unixToInternal; lia).
    unfold unixToInternal. lia.
  - rewrite (int64_id (q + unixToInternal))
      by (unfold is_int64, two63, unixToInternal; lia).
    cbn [t_sec t_nsec]. unfold Time_UnixNano. cbn [t_sec t_nsec].
    unfold internalToUnix. split; [lia |].
    rewrite int64_id by (unfold is_int64, two63, unixToInternal; lia).
    unfold unixToInternal. lia.
Qed.

Lemma valuesToContainerStats_time_in_milliseconds_witness :
  exists st',
    valuesToContainerStats sampleImpl sampleStorage [colTimestamp]
      [VFloat64 (S754_finite true 1500 0)] = Ok (Some st')
    /\ 0 <= t_nsec (Timestamp st') < 1000000000
    /\ Time_UnixNano (Timestamp st') = (- 1500) * 1000000.
Proof.
  apply (valuesToContainerStats_time_in_milliseconds sampleImpl sampleStorage
           (S754_finite true 1500 0) (- 1500)); [reflexivity | lia].
Defined.

(** ** Filesystem rows read back *)

(** What the read path makes of the row of a filesystem entry. *)
Lemma valuesToContainerStats_fs impl self f :
  valuesToContainerStats impl self fsColumns (fsValues f)
  = Ok (Some (set_Filesystem [f] emptyStats)).
Proof. destruct f. reflexivity. Qed.

(** X8.  Each row containerFilesystemStatsToSeries produces, fed to
    valuesToContainerStats under any host, reads back as a sample whose
    filesystem list is exactly the one entry the row was made from, in the
    order of the sample's entries; everything else in it is zero: the
    timestamp, CPU, memory and network values of the sample are not part
    of the row. *)
Theorem filesystem_row_roundtrip impl self ref st w :
  returns (containerFilesystemStatsToSeries impl ref (Some st)) w
    (fun rows w' =>
       Forall2 (fun s f =>
           exists vals,
             Points (series_data w' s) = [vals]
             /\ valuesToContainerStats impl self (Columns (series_data w' s)) vals
                = Ok (Some (set_Filesystem [f] emptyStats)))
         rows (Filesystem st)).
Proof.
  eapply returns_conseq; [apply containerFilesystemStatsToSeries_spec |].
  cbv beta. intros rows w' (_ & _ & Hall).
  induction Hall as [| s f rows fs Hrow _ IH]; constructor; [| exact IH].
  rewrite (row_data _ _ _ _ _ Hrow). cbn [Points Columns].
  exists (fsValues f). split; [reflexivity |]. apply valuesToContainerStats_fs.
Qed.

(** ** valuesToContainerStats: the string columns *)

(** X9.  The machine and fs_device columns take strings only.  A value of
    any other dynamic type in one of them, nil included (which a numeric
    column reads as 0), ends valuesToContainerStats with an error; when
    the columns before it go through, the error is the one of that column
    and carries the raw value. *)
Theorem valuesToContainerStats_string_columns impl self columns values i col v :
  columns !! i = Some col -> col = colMachineName \/ col = colFsDevice ->
  values !! i = Some v -> (forall s, v <> VString s) ->
  (exists e, valuesToContainerStats impl self columns values = Err e)
  /\ (is_Ok (valuesToContainerStats impl self (take i columns) values) = true ->
      valuesToContainerStats impl self columns values
      = Err (if String.eqb col colMachineName then errMachineNotString v
             else errFsNameNotString v)).
Proof.
  intros Hcol Hwhich Hval Hns.
  assert (Hcase : forall stats,
            valuesToContainerStats_case impl self col v stats None
            = Err (if String.eqb col colMachineName then errMachineNotString v
                   else errFsNameNotString v)).
  { intros stats. destruct Hwhich as [-> | ->];
      unfold valuesToContainerStats_case; cbn;
      destruct v; try reflexivity; exfalso; eapply Hns; reflexivity. }
  destruct (valuesToContainerStats_at impl self columns values i _ _ Hcol Hval)
    as [(e & Hpre & Hall) | (stats & _ & Hpre & Hall)].
  - split; [eauto |]. rewrite Hpre. discriminate.
  - rewrite Hcase in Hall. cbn [rbind] in Hall. split; [eauto |].
    intros _. exact Hall.
Qed.

Lemma valuesToContainerStats_string_columns_witness :
  valuesToContainerStats sampleImpl sampleStorage
    [colCpuCumulativeUsage; colMachineName] [VNil; VNil]
  = Err (errMachineNotString VNil).
Proof.
  apply (valuesToContainerStats_string_columns sampleImpl sampleStorage
           [colCpuCumulativeUsage; colMachineName] [VNil; VNil] 1%nat
           colMachineName VNil); try reflexivity.
  - left. reflexivity.
  - discriminate.
Defined.

(** ** RecentStats: what a call does to the world, and how much it returns *)

Lemma valuesToContainerStats_not_nil impl self columns values :
  valuesToContainerStats impl self columns values <> Ok None.
Proof.
  intros H.
  destruct (valuesToContainerStats_loop_allocated impl self _ _ _ _ _
              emptyStats_allocated H) as (st & Hst & _). discriminate Hst.
Qed.

Lemma reconstructAll_length rec rows :
  (forall r, rec r <> Ok None) ->
  forall acc l,
  reconstructAll rec rows acc = Ok l ->
  length l = (length acc + length rows)%nat.
Proof.
  intros Hrec. induction rows as [| r rows IH]; intros acc l H; cbn in H.
  - injection H as <-. cbn. lia.
  - destruct (rec r) as [[st |] | e | p] eqn:Hr; try discriminate H.
    + apply IH in H. rewrite length_app in H. cbn in *. lia.
    + exfalso. eapply Hrec. exact Hr.
Qed.

(** X10.  When RecentStats returns samples, it returns exactly one per
    point of the store's answer: reconstruction never yields a nil record
    without an error, so no point is skipped.  The count asked for is only
    sent to the store in the query; the result is as long as the
    answer. *)
Theorem RecentStats_one_sample_per_point impl containerName numStats c series w l :
  numStats <> 0 -> client (self w) = Some c ->
  Query c (RecentStats_query (self w) containerName numStats) = (series, None) ->
  fst (RecentStats impl containerName numStats w) = Ok l ->
  length l = length (storeRows series)
  /\ length l = list_sum (map (fun s => length (Points s)) series).
Proof.
  intros Hn Hcl Hq Hrun.
  assert (Hlen : length l = length (storeRows series)).
  { unfold RecentStats in Hrun.
    destruct (numStats =? 0) eqn:E; [apply Z.eqb_eq in E; contradiction |].
    unfold bind, get, lift, emit, modify, deref in Hrun. rewrite Hcl in Hrun.
    cbn [self with_trace] in Hrun. rewrite Hq in Hrun. cbn [fst] in Hrun.
    rewrite RecentStats_series_rows in Hrun by lia. rewrite firstn_all in Hrun.
    apply reconstructAll_length in Hrun.
    - rewrite length_rev in Hrun. exact Hrun.
    - intros r. apply valuesToContainerStats_not_nil. }
  split; [exact Hlen |]. rewrite Hlen. clear.
  unfold storeRows. induction series as [| s series IH]; [reflexivity |].
  cbn [flat_map map list_sum]. rewrite length_app, length_map, IH. reflexivity.
Qed.

Lemma RecentStats_one_sample_per_point_witness :
  length [sampleAt 10 1; sampleAt 20 2; sampleAt 30 3]
  = length (storeRows (fst (Query sampleQueryClient ""%string)))
  /\ length [sampleAt 10 1; sampleAt 20 2; sampleAt 30 3]
     = list_sum (map (fun s => length (Points s))
                   (fst (Query sampleQueryClient ""%string))).
Proof.
  apply (RecentStats_one_sample_per_point sampleImpl "web" 1 sampleQueryClient
           (fst (Query sampleQueryClient ""%string)) sampleQueryWorld
           [sampleAt 10 1; sampleAt 20 2; sampleAt 30 3]).
  - lia.
  - reflexivity.
  - reflexivity.
  - vm_compute. reflexivity.
Defined.

Lemma string_app_assoc (a b c : string) :
  ((a ++ b) ++ c)%string = (a ++ (b ++ c))%string.
Proof.
  induction a as [| x a IH]; [reflexivity |].
  change (String x ((a ++ b) ++ c)%string = String x (a ++ (b ++ c))%string).
  f_equal. exact IH.
Qed.

(** X11.  A call of RecentStats with a non-zero count on an open storage
    makes exactly one query and touches nothing else: whatever the
    outcome, the world afterwards is the world before with one query event
    added, so the pending batch, lastWrite and memory are unchanged.  The
    query selects on the container and the host of the storage, the two
    names put between quotes as they are, with a limit clause exactly when
    the count is positive.  An error of the query is returned as it is. *)
Theorem RecentStats_one_query impl containerName numStats c w :
  numStats <> 0 -> client (self w) = Some c ->
  let limit :=
    if 0 <? numStats then (" limit " ++ pretty numStats)%string else ""%string in
  let query :=
    ("select * from " ++ tableName (self w) ++ " where container_name='"
       ++ containerName ++ "' and machine='" ++ machineName (self w) ++ "'"
       ++ limit)%string in
  snd (RecentStats impl containerName numStats w)
  = with_trace (trace w ++ [EvQuery query]) w
  /\ (forall series err,
        Query c query = (series, Some err) ->
        fst (RecentStats impl containerName numStats w) = Err err).
Proof.
  intros Hn Hcl limit query.
  assert (Hq : RecentStats_query (self w) containerName numStats = query).
  { subst query limit.
    unfold RecentStats_query, colContainerName, colMachineName.
    destruct (0 <? numStats).
    - rewrite !string_app_assoc. reflexivity.
    - reflexivity. }
  unfold RecentStats.
  destruct (numStats =? 0) eqn:E; [apply Z.eqb_eq in E; contradiction |].
  unfold bind, get, lift, emit, modify, deref. rewrite Hcl.
  cbn [self with_trace]. rewrite Hq.
  destruct (Query c query) as [series [err |]] eqn:Hquery; cbn [fst snd];
    split; try reflexivity; intros series' err' H; congruence.
Qed.

Lemma RecentStats_one_query_witness :
  snd (RecentStats sampleImpl "web" 3 sampleQueryWorld)
  = with_trace
      (trace sampleQueryWorld
         ++ [EvQuery "select * from stats where container_name='web' and machine='machine-A' limit 3"])
      sampleQueryWorld.
Proof.
  destruct (RecentStats_one_query sampleImpl "web" 3 sampleQueryClient
              sampleQueryWorld) as [H _]; [lia | reflexivity |].
  rewrite H. reflexivity.
Defined.

(** ** New, and the first sample on a fresh storage *)

(** AddStats under the default policy on an empty pending batch: written
    through when due, buffered otherwise. *)
Lemma AddStats_default_empty impl ref st cpu mem w :
  Cpu st = Some cpu -> Memory st = Some mem ->
  readyToFlush (self w) = policyDefault -> series (self w) = [] ->
  let due := bufferDuration (self w)
             <=? Time_Sub (clock w (ticks w)) (lastWrite (self w)) in
  let out := AddStats impl ref (Some st) w in
  let data := sampleRows (tableName (self w)) st cpu mem in
  if due then
    forall c, client (self w) = Some c ->
      fst out = match WriteSeriesWithTimePrecision c data Microsecond with
                | Some e => Err (errWriteFailed e)
                | None => Ok tt
                end
      /\ series (self (snd out)) = []
      /\ lastWrite (self (snd out)) = clock w (S (ticks w))
      /\ List.filter is_write (trace (snd out))
         = List.filter is_write (trace w) ++ [EvWriteSeries data Microsecond]
  else
    fst out = Ok tt
    /\ map (series_data (snd out)) (series (self (snd out))) = data
    /\ lastWrite (self (snd out)) = lastWrite (self w)
    /\ List.filter is_write (trace (snd out)) = List.filter is_write (trace w).
Proof.
  intros Hcpu Hmem Hpol Hempty due out data.
  destruct (returns_run _ _ _ (AddStats_func1_rows impl ref st cpu mem w Hcpu Hmem))
    as (batch & w1 & Hrun & core & fsrows & Hdata & _ & Hb & Hs & _ & _ & Ht & _).
  cbv zeta in Hdata, Hb, Hs, Ht.
  assert (Hready : forall p, policy_ready w p = due).
  { intros p. unfold policy_ready. rewrite Hpol. reflexivity. }
  assert (Hreads : policy_reads w = 1%nat) by (unfold policy_reads; now rewrite Hpol).
  rewrite Hready, Hreads, Hempty in *. cbn [app] in *.
  subst out.
  rewrite (AddStats_after_locked impl ref st cpu mem w batch w1 Hcpu Hmem Hrun).
  destruct due.
  - intros c Hcl. subst batch. cbn [length Nat.ltb Nat.leb].
    rewrite Hs. cbn [client set_lastWrite set_series]. rewrite Hcl.
    cbn [fst snd self trace with_trace]. rewrite Hs, Hdata.
    cbn [series lastWrite set_lastWrite set_series].
    replace (ticks w + 1)%nat with (S (ticks w)) by lia.
    split_and!; try reflexivity.
    rewrite Ht, !List.filter_app. cbn. rewrite !app_nil_r. reflexivity.
  - subst batch. cbn [length Nat.ltb Nat.leb fst snd]. rewrite Hs.
    cbn [series lastWrite set_series].
    split_and!; try reflexivity; [exact Hdata |].
    rewrite Ht, !List.filter_app. cbn. rewrite !app_nil_r. reflexivity.
Qed.

(** X12.  New hands the configuration to the client constructor and, when
    that succeeds, returns a storage that starts with an empty pending
    batch, the default flush policy and the time of construction as its
    last write.  So the first valid sample given to it is written through
    at once, alone and with the write's result, when the clock has advanced
    by at least bufferDuration since New; otherwise it is buffered: no
    error, no store write, and the pending batch holds exactly the rows of
    that sample. *)
Theorem New_then_AddStats impl NewClient mach table database username password
    host secure buf c ref st cpu mem w :
  NewClient {| Host := host; Username := username; Password := password;
               Database := database; IsSecure := secure |} = inl c ->
  Cpu st = Some cpu -> Memory st = Some mem ->
  exists s,
    New NewClient mach table database username password host secure buf w
    = (Ok s, with_ticks (S (ticks w)) w)
    /\ let out := AddStats impl ref (Some st)
                    (with_self s (with_ticks (S (ticks w)) w)) in
       let data := sampleRows table st cpu mem in
       if buf <=? Time_Sub (clock w (S (ticks w))) (clock w (ticks w)) then
         fst out = match WriteSeriesWithTimePrecision c data Microsecond with
                   | Some e => Err (errWriteFailed e)
                   | None => Ok tt
                   end
         /\ series (self (snd out)) = []
         /\ List.filter is_write (trace (snd out))
            = List.filter is_write (trace w) ++ [EvWriteSeries data Microsecond]
       else
         fst out = Ok tt
         /\ map (series_data (snd out)) (series (self (snd out))) = data
         /\ List.filter is_write (trace (snd out)) = List.filter is_write (trace w).
Proof.
  intros Hnew Hcpu Hmem.
  eexists. split.
  - unfold New. rewrite Hnew. reflexivity.
  - cbv zeta.
    match goal with
    | |- context [with_self ?s ?w1] =>
        pose proof (AddStats_default_empty impl ref st cpu mem (with_self s w1)
                      Hcpu Hmem eq_refl eq_refl) as H
    end.
    cbv zeta in H.
    cbn [self clock ticks trace with_self with_ticks bufferDuration lastWrite
         tableName client] in H.
    destruct (buf <=? Time_Sub (clock w (S (ticks w))) (clock w (ticks w))).
    + destruct (H c eq_refl) as (H1 & H2 & _ & H4). auto.
    + destruct H as (H1 & H2 & _ & H4). auto.
Qed.

Lemma New_then_AddStats_witness :
  exists s,
    New (fun _ => inl sampleClient) "machine-A" "stats" "db" "user" "secret"
      "localhost:8086" false 0 sampleWorld
    = (Ok s, with_ticks (S (ticks sampleWorld)) sampleWorld)
    /\ fst (AddStats sampleImpl sampleRef (Some sampleStatsNoFs)
              (with_self s (with_ticks (S (ticks sampleWorld)) sampleWorld)))
       = Err (errWriteFailed (errStore "connection refused")).
Proof.
  destruct (New_then_AddStats sampleImpl (fun _ => inl sampleClient)
              "machine-A" "stats" "db" "user" "secret" "localhost:8086" false 0
              sampleClient sampleRef sampleStatsNoFs sampleCpu sampleMemory
              sampleWorld eq_refl eq_refl eq_refl) as (s & Hnew & H).
  exists s. split; [exact Hnew |].
  cbv zeta in H.
  assert (Hdue : (0 <=? Time_Sub (clock sampleWorld (S (ticks sampleWorld)))
                          (clock sampleWorld (ticks sampleWorld))) = true)
    by (vm_compute; reflexivity).
  rewrite Hdue in H. destruct H as (H & _). exact H.
Defined.

(** ** containerStatsToValues: what the guard of AddStats protects *)

(** X13.  containerStatsToValues dereferences the sample and its CPU and
    memory sub-records without a check: it returns normally exactly when
    all three are present (the network sub-record may be nil), and panics
    with a nil dereference otherwise. *)
Theorem containerStatsToValues_needs_cpu_and_memory impl ref stats w :
  (exists st cpu mem,
     stats = Some st /\ Cpu st = Some cpu /\ Memory st = Some mem
     /\ is_Ok (fst (containerStatsToValues impl ref stats w)) = true)
  \/ ((stats = None
       \/ exists st, stats = Some st /\ (Cpu st = None \/ Memory st = None))
      /\ fst (containerStatsToValues impl ref stats w) = Panic nilDereference).
Proof.
  destruct stats as [st |].
  2: { right. split; [now left |].
       unfold containerStatsToValues, getSeriesDefaultValues, bind, appendS,
         lift, deref.
       destruct (append "" impl (strings w) nilSlice colTimestamp). reflexivity. }
  destruct (Cpu st) as [cpu |] eqn:Ecpu, (Memory st) as [mem |] eqn:Emem.
  - left. exists st, cpu, mem. split_and!; auto.
    destruct (returns_run _ _ _
                (containerStatsToValues_spec impl ref st cpu mem w Ecpu Emem))
      as (cv & w' & Hrun & _).
    rewrite Hrun. reflexivity.
  - right. split; [right; exists st; auto |].
    destruct (returns_run _ _ _
                (getSeriesDefaultValues_keeps impl ref st w w nilSlice nilSlice
                   [] [] (building_start w))) as (u & w1 & Hrun & _).
    unfold containerStatsToValues, bind. rewrite Hrun.
    unfold lift, deref, appendS, appendV. rewrite Ecpu, Emem.
    repeat match goal with
           | |- context [append ?z impl ?h ?s ?x] =>
               destruct (append z impl h s x); cbn
           end.
    reflexivity.
  - right. split; [right; exists st; auto |].
    destruct (returns_run _ _ _
                (getSeriesDefaultValues_keeps impl ref st w w nilSlice nilSlice
                   [] [] (building_start w))) as (u & w1 & Hrun & _).
    unfold containerStatsToValues, bind. rewrite Hrun.
    unfold lift, deref, appendS, appendV. rewrite Ecpu.
    repeat match goal with
           | |- context [append ?z impl ?h ?s ?x] =>
               destruct (append z impl h s x); cbn
           end.
    reflexivity.
  - right. split; [right; exists st; auto |].
    destruct (returns_run _ _ _
                (getSeriesDefaultValues_keeps impl ref st w w nilSlice nilSlice
                   [] [] (building_start w))) as (u & w1 & Hrun & _).
    unfold containerStatsToValues, bind. rewrite Hrun.
    unfold lift, deref, appendS, appendV. rewrite Ecpu.
    repeat match goal with
           | |- context [append ?z impl ?h ?s ?x] =>
               destruct (append z impl h s x); cbn
           end.
    reflexivity.
Qed.

(** ** valuesToContainerStats: repeated numeric columns *)

Section NumericFields.
Variable impl : GoImpl.
Variable self : influxdbStorage.

(** A numeric column that goes through stores the coerced value in its
    field. *)
Lemma valuesToContainerStats_case_sets_field col v stats stats' :
  In col numericColumns -> allocated stats ->
  valuesToContainerStats_case impl self col v stats None = Ok (stats', None) ->
  numericField col stats' = Some (fst (convertToUint64 impl v)).
Proof.
  intros Hin (Hc & Hm & Hn & _) Hrun.
  destruct (Cpu stats) as [cpu |] eqn:Ecpu; [| congruence].
  destruct (Memory stats) as [mem |] eqn:Emem; [| congruence].
  destruct (Network stats) as [net |] eqn:Enet; [| congruence].
  unfold numericColumns, networkColumns in Hin. cbn in Hin.
  repeat (destruct Hin as [<- | Hin]); try contradiction;
    unfold valuesToContainerStats_case in Hrun; cbn in Hrun;
    rewrite ?Ecpu, ?Emem, ?Enet in Hrun; cbn in Hrun;
    destruct (convertToUint64 impl v) as [x e]; cbn in *;
    repeat case_match; simplify_eq; reflexivity.
Qed.

(** Every other column leaves that field, once set, alone. *)
Lemma valuesToContainerStats_case_keeps_field col col' v stats err stats' err' x :
  In col numericColumns -> col' <> col ->
  valuesToContainerStats_case impl self col' v stats err = Ok (stats', err') ->
  numericField col stats = Some x -> numericField col stats' = Some x.
Proof.
  intros Hin Hne Hrun Hf.
  unfold numericColumns, networkColumns in Hin. cbn in Hin.
  unfold valuesToContainerStats_case, rbind, deref in Hrun.
  repeat (destruct Hin as [<- | Hin]); try contradiction;
    repeat match type of Hrun with
           | context [String.eqb col' ?c] =>
               destruct (String.eqb_spec col' c) as [-> | ?]
           end;
    try congruence;
    repeat case_match; simplify_eq; cbn in Hf |- *;
    repeat match goal with
           | H : Cpu _ = _ |- _ => first [rewrite H in Hf | rewrite H]
           | H : Memory _ = _ |- _ => first [rewrite H in Hf | rewrite H]
           | H : Network _ = _ |- _ => first [rewrite H in Hf | rewrite H]
           | H : Filesystem _ = _ |- _ => first [rewrite H in Hf | rewrite H]
           end;
    first [exact Hf | discriminate Hf].
Qed.

Lemma valuesToContainerStats_loop_keeps_field col values columns x :
  In col numericColumns ->
  forall i stats st',
  (forall k, columns !! k <> Some col) ->
  valuesToContainerStats_loop impl self values i columns stats None
  = Ok (Some st') ->
  numericField col stats = Some x -> numericField col st' = Some x.
Proof.
  intros Hin. induction columns as [| col' columns' IH];
    intros i stats st' Hno Hrun Hf.
  - cbn in Hrun. injection Hrun as <-. exact Hf.
  - cbn [valuesToContainerStats_loop] in Hrun.
    destruct (values !! i) as [v |]; [| discriminate].
    destruct (valuesToContainerStats_case impl self col' v stats None)
      as [[stats' err'] | e | p] eqn:Hcase; cbn [rbind] in Hrun;
      try discriminate.
    destruct err' as [e |]; [discriminate |].
    apply (IH _ _ _ (fun k => Hno (S k)) Hrun).
    eapply valuesToContainerStats_case_keeps_field;
      [exact Hin | | exact Hcase | exact Hf].
    intros ->. apply (Hno 0%nat). reflexivity.
Qed.

End NumericFields.

(** X14.  For the numeric columns the last occurrence wins (for the time
    column it is the first): when a row is reconstructed, the field of a
    numeric column holds the coerced value found at the last position of
    that column. *)
Theorem valuesToContainerStats_last_numeric_wins
    impl self columns values i col v st' :
  columns !! i = Some col -> In col numericColumns -> values !! i = Some v ->
  (forall j, (i < j)%nat -> columns !! j <> Some col) ->
  valuesToContainerStats impl self columns values = Ok (Some st') ->
  numericField col st' = Some (fst (convertToUint64 impl v)).
Proof.
  intros Hcol Hin Hval Hlast Hrun.
  destruct (valuesToContainerStats_at impl self columns values i _ _ Hcol Hval)
    as [(e & _ & Hall) | (stats & Hst & _ & Hall)]; [congruence |].
  rewrite Hrun in Hall.
  destruct (valuesToContainerStats_case impl self col v stats None)
    as [[stats1 err1] | e | p] eqn:Hcase; cbn [rbind] in Hall;
    try discriminate.
  destruct err1 as [e |]; [discriminate |].
  symmetry in Hall.
  eapply (valuesToContainerStats_loop_keeps_field impl self col values);
    [exact Hin | | exact Hall |].
  - intros k Hk. rewrite lookup_drop in Hk. apply (Hlast (S i + k)%nat); [lia |].
    exact Hk.
  - eapply valuesToContainerStats_case_sets_field; eauto.
Qed.

Lemma valuesToContainerStats_last_numeric_wins_witness :
  numericField colCpuCumulativeUsage (sampleAt 0 9 ) = Some 9.
Proof.
  apply (valuesToContainerStats_last_numeric_wins sampleImpl sampleStorage
           [colCpuCumulativeUsage; colTimestamp; colCpuCumulativeUsage]
           [VUint64 4; VFloat64 (S754_zero false); VUint64 9] 2%nat
           colCpuCumulativeUsage (VUint64 9) (sampleAt 0 9)).
  - reflexivity.
  - left. reflexivity.
  - reflexivity.
  - intros j Hj Hc. apply lookup_lt_Some in Hc. cbn in Hc. lia.
  - vm_compute. reflexivity.
Defined.
